(** * CubitsAtWork: generation lifecycle, measurement synthesizer, diagram scaling

    A shallow embedding of the three pieces of front-end logic that carry
    control flow or arithmetic:

    - [Layout] (src/components/Layout.tsx): the handlers that start, stage,
      commit, fail and reset a generation, and the condition under which the
      result views are rendered;
    - [SimulationResults.handleRunSimulation]
      (src/components/SimulationResults.tsx): the deterministic table of
      measurement counts;
    - [CircuitVisualization] (src/components/CircuitVisualization.tsx): the
      zoom factor that fits a diagram to its container.

    Definitions come first, theorems after them. *)

From Stdlib Require Import ZArith NArith List String Ascii Bool Lia QArith.
From Stdlib Require Import Permutation.
From Stdlib Require Import PrimFloat SpecFloat FloatOps FloatAxioms Uint63.
Import ListNotations.

Set Warnings "-inexact-float".

Local Open Scope Z_scope.

(* ================================================================= *)
(** ** JavaScript values *)

Module JS.

(** The numbers that the synthesizer stores: every finite value that reaches
    a table is an integer, and the only other value that arises is [NaN]
    (from [charCodeAt(0)] of an empty string).  Products with the fractional
    constants 0.48, 0.1 and 0.2 are evaluated in IEEE binary64 through Rocq's
    primitive floats and brought back with [floor]. *)
Inductive number : Type :=
| Int (z : Z)
| NaN.

(** Exceptions a string primitive can raise. *)
Inductive exn : Type :=
| RangeError.

Inductive result (A : Type) : Type :=
| Ok (a : A)
| Throw (e : exn).

Arguments Ok {A} a.
Arguments Throw {A} e.

Definition bind {A B : Type} (r : result A) (k : A -> result B) : result B :=
  match r with
  | Ok a => k a
  | Throw e => Throw e
  end.

Notation "x <- r ;; k" := (bind r (fun x => k))
  (at level 61, r at next level, right associativity).

(** A loop whose body may throw. *)
Fixpoint foldM {A S : Type} (body : S -> A -> result S) (l : list A) (s : S)
  : result S :=
  match l with
  | [] => Ok s
  | a :: l' => s' <- body s a ;; foldM body l' s'
  end.

(** [for (let i = 0; i < bound; i++)]: the values [i] takes. *)
Definition range (bound : Z) : list Z :=
  map Z.of_nat (seq 0 (Z.to_nat bound)).

(** Integers below 2^53 convert to binary64 exactly. *)
Definition float_of_Z (z : Z) : float :=
  if z <? 0 then PrimFloat.opp (PrimFloat.of_uint63 (Uint63.of_Z (- z)))
  else PrimFloat.of_uint63 (Uint63.of_Z z).

Definition to_float (x : number) : float :=
  match x with
  | Int z => float_of_Z z
  | NaN => PrimFloat.nan
  end.

(** [Math.floor].  A finite binary64 is [(-1)^s * m * 2^e]; shifting the
    signed mantissa rounds towards minus infinity.  The infinities are not
    [number]s of this model; no operand here exceeds 1024, so none arises. *)
Definition floor (x : float) : number :=
  match Prim2SF x with
  | S754_zero _ => Int 0
  | S754_finite s m e => Int (Z.shiftl (if s then Zneg m else Zpos m) e)
  | S754_infinity _ => NaN
  | S754_nan => NaN
  end.

(** [a % b] on numbers ([b] a non-zero integer literal). *)
Definition rem (a : number) (b : Z) : number :=
  match a with
  | Int z => Int (Z.rem z b)
  | NaN => NaN
  end.

(** [Math.min(a, b)]. *)
Definition min (a b : number) : number :=
  match a, b with
  | Int x, Int y => Int (Z.min x y)
  | _, _ => NaN
  end.

Definition sub (a b : number) : number :=
  match a, b with
  | Int x, Int y => Int (x - y)
  | _, _ => NaN
  end.

(** [a > 0]: false on [NaN]. *)
Definition gt0 (a : number) : bool :=
  match a with
  | Int z => 0 <? z
  | NaN => false
  end.

(** A JavaScript string as its UTF-16 code units.  Used for [circuit_type],
    which is an arbitrary string of the service; the keys of a table are
    made of ASCII characters only and are Rocq [string]s. *)
Definition jsstr : Type := list N.

Definition lit (s : string) : jsstr :=
  map N_of_ascii (list_ascii_of_string s).

Definition jsstr_eqb (a b : jsstr) : bool :=
  if list_eq_dec N.eq_dec a b then true else false.

(** [s.charCodeAt(0)]: [NaN] when the string is empty. *)
Definition charCodeAt0 (s : jsstr) : number :=
  match s with
  | [] => NaN
  | c :: _ => Int (Z.of_N c)
  end.

Fixpoint replicate (n : nat) (c : ascii) : list ascii :=
  match n with
  | O => []
  | S n' => c :: replicate n' c
  end.

(** [c.repeat(n)] throws a RangeError on a negative count.  (Strings are
    unbounded here; the engine's limit on their length is not modelled.) *)
Definition repeat (c : ascii) (n : Z) : result string :=
  if n <? 0 then Throw RangeError
  else Ok (string_of_list_ascii (replicate (Z.to_nat n) c)).

(** [s.split('')] and [a.join('')] on arrays of one-character strings. *)
Definition split (s : string) : list ascii := list_ascii_of_string s.
Definition join (a : list ascii) : string := string_of_list_ascii a.

(** [a[i] = c].  Past the end the array grows; the holes left in between
    are skipped by [join], so only the new element shows. *)
Fixpoint assign (a : list ascii) (i : nat) (c : ascii) : list ascii :=
  match a, i with
  | [], _ => [c]
  | _ :: a', O => c :: a'
  | x :: a', S i' => x :: assign a' i' c
  end.

(** Binary digits of a positive, most significant first. *)
Fixpoint pos_digits (p : positive) (acc : list ascii) : list ascii :=
  match p with
  | xH => "1"%char :: acc
  | xO p' => pos_digits p' ("0"%char :: acc)
  | xI p' => pos_digits p' ("1"%char :: acc)
  end.

(** [i.toString(2)] for an integer [i]. *)
Definition toString2 (i : Z) : list ascii :=
  match i with
  | Z0 => ["0"%char]
  | Zpos p => pos_digits p []
  | Zneg p => "-"%char :: pos_digits p []
  end.

(** [s.padStart(n, '0')]: unchanged when [s] already has [n] characters or
    more (in particular for a negative [n]). *)
Definition padStart (s : list ascii) (n : Z) : list ascii :=
  replicate (Z.to_nat n - List.length s) "0"%char ++ s.

(** An object used as a dictionary, in insertion order.  [set] is
    [o[k] = v]: an existing key keeps its place.  (The engine enumerates
    integer-like keys first; nothing below depends on enumeration order.) *)
Definition object (V : Type) : Type := list (string * V).

Fixpoint set {V : Type} (o : object V) (k : string) (v : V) : object V :=
  match o with
  | [] => [(k, v)]
  | (k', v') :: o' =>
      if String.eqb k' k then (k', v) :: o' else (k', v') :: set o' k v
  end.

Fixpoint get {V : Type} (o : object V) (k : string) : option V :=
  match o with
  | [] => None
  | (k', v') :: o' => if String.eqb k' k then Some v' else get o' k
  end.

Definition keys {V : Type} (o : object V) : list string := map fst o.
Definition values {V : Type} (o : object V) : list V := map snd o.

End JS.

(* ================================================================= *)
(** ** The generation service's response (src/services/api.ts) *)

(** [explanation], [visualization] and [exports] are payloads the front end
    only passes on.  Qubit counts are integers; [num_qubits] may be missing
    in a response, which the measurement panel anticipates, and
    [parameters_num_qubits] is [parameters?.num_qubits]. *)
Record CircuitResponse : Type := mkCircuitResponse {
  circuit_type : JS.jsstr;
  num_qubits : option Z;
  parameters_num_qubits : option Z;
  explanation : string;
  visualization : string;
  exports : string
}.

(* ================================================================= *)
(** ** Measurement panel (src/components/SimulationResults.tsx) *)

Module SimulationResults.
Import JS.

Definition SimulationCounts : Type := object number.

Record Results : Type := mkResults {
  counts : SimulationCounts;
  numQubits : Z;
  resultShots : Z;
  probabilities : object float
}.

Definition totalShots : Z := 1024.

(** [a || b] on a possibly missing number: 0 and undefined are falsy. *)
Definition orElse (a : option Z) (b : Z) : Z :=
  match a with
  | Some 0 => b
  | Some n => n
  | None => b
  end.

(** [circuitData.num_qubits || parameters?.num_qubits || 3]. *)
Definition resolveNumQubits (circuitData : CircuitResponse) : Z :=
  orElse (num_qubits circuitData)
         (orElse (parameters_num_qubits circuitData) 3).

(** [Math.floor(totalShots * 0.48)]. *)
Definition zeroShare : number :=
  floor (PrimFloat.mul (float_of_Z totalShots) 0.48%float).

Definition bellCounts : SimulationCounts :=
  let counts := set [] "00" zeroShare in
  set counts "11" (sub (Int totalShots) zeroShare).

Definition ghzCounts (numQubits : Z) : result SimulationCounts :=
  zeros <- repeat "0"%char numQubits ;;
  ones <- repeat "1"%char numQubits ;;
  let counts := set [] zeros zeroShare in
  Ok (set counts ones (sub (Int totalShots) zeroShare)).

(** [Math.floor(totalShots / totalStates)].  The quotient is used only
    inside the loop, that is for [numQubits >= 1], where the binary64
    quotient of 1024 by an integer floors to the integer quotient
    (see [baseCount_binary64] for the divisors up to 1024; beyond them both
    are 0). *)
Definition baseCount (numQubits : Z) : Z := totalShots / numQubits.

(** A string of zeros with a single 1 at position [i]. *)
Definition wState (numQubits i : Z) : result string :=
  zeros <- repeat "0"%char numQubits ;;
  let stateString := split zeros in
  Ok (join (assign stateString (Z.to_nat i) "1"%char)).

Definition wBody (numQubits : Z) (acc : SimulationCounts * Z) (i : Z)
  : result (SimulationCounts * Z) :=
  let '(counts, remainingShots) := acc in
  state <- wState numQubits i ;;
  if i <? numQubits - 1
  then Ok (set counts state (Int (baseCount numQubits)),
           remainingShots - baseCount numQubits)
  else Ok (set counts state (Int remainingShots), remainingShots).

Definition wCounts (numQubits : Z) : result SimulationCounts :=
  acc <- foldM (wBody numQubits) (range numQubits) ([], totalShots) ;;
  Ok (fst acc).

(** [(circuit_type.charCodeAt(0) % 10) / 10]. *)
Definition factor (circuit_type : jsstr) : float :=
  PrimFloat.div (to_float (rem (charCodeAt0 circuit_type) 10)) 10%float.

(** [Math.floor(remainingShots * (0.1 + (i % 3) * 0.2 * factor))]. *)
Definition share (remainingShots : number) (i : Z) (factor : float) : number :=
  floor (PrimFloat.mul (to_float remainingShots)
           (PrimFloat.add 0.1%float
              (PrimFloat.mul
                 (PrimFloat.mul (float_of_Z (Z.rem i 3)) 0.2%float)
                 factor))).

Definition stateKey (numQubits i : Z) : string :=
  join (padStart (toString2 i) numQubits).

Definition otherBody (circuit_type : jsstr) (numQubits : Z)
  (acc : SimulationCounts * number) (i : Z) : SimulationCounts * number :=
  let '(counts, remainingShots) := acc in
  let count := share remainingShots i (factor circuit_type) in
  let taken := min count remainingShots in
  (set counts (stateKey numQubits i) taken, sub remainingShots taken).

(** [(maxStates - 1).toString(2)] when [numQubits = -k < 0]:
    [2 ** numQubits - 1] is [-(1 - 2^-k)], written with [k] binary ones, and
    rounds to [-1] once [2^-k] is below half an ulp of 1. *)
Definition negativeLastKey (k : Z) : string :=
  if k <=? 53
  then join ("-"%char :: "0"%char :: "."%char :: replicate (Z.to_nat k) "1"%char)
  else "-1"%string.

Definition otherCounts (circuit_type : jsstr) (numQubits : Z)
  : SimulationCounts :=
  if numQubits <? 0
  then
    (* maxStates = 2 ** numQubits < 1: the loop bound is negative, the body
       never runs, and padStart with a negative length changes nothing *)
    set [] (negativeLastKey (- numQubits)) (Int totalShots)
  else
    let maxStates := Z.min (2 ^ numQubits) 16 in
    let '(counts, remainingShots) :=
      fold_left (otherBody circuit_type numQubits) (range (maxStates - 1))
                ([], Int totalShots) in
    if gt0 remainingShots
    then set counts (stateKey numQubits (maxStates - 1)) remainingShots
    else counts.

(** The branch on [circuit_type]: the table of counts, or the exception
    that leaves the [try] block. *)
Definition synthesize (circuit_type : jsstr) (numQubits : Z)
  : result SimulationCounts :=
  if jsstr_eqb circuit_type (lit "bell_state") then Ok bellCounts
  else if jsstr_eqb circuit_type (lit "ghz_state") then ghzCounts numQubits
  else if jsstr_eqb circuit_type (lit "w_state") then wCounts numQubits
  else Ok (otherCounts circuit_type numQubits).

(** [Object.fromEntries(Object.entries(counts).map(...))]. *)
Definition toProbabilities (counts : SimulationCounts) : object float :=
  fold_left
    (fun o entry =>
       set o (fst entry)
           (PrimFloat.div (to_float (snd entry)) (float_of_Z totalShots)))
    counts [].

(** What the panel ends up with: the results handed to [setResults], or the
    message of the [catch] block shown to the user. *)
Inductive Outcome : Type :=
| Shown (results : Results)
| Failed (message : string).

Definition handleRunSimulation (circuitData : CircuitResponse) : Outcome :=
  let numQubits := resolveNumQubits circuitData in
  match synthesize (circuit_type circuitData) numQubits with
  | Ok counts =>
      Shown {| counts := counts;
               numQubits := numQubits;
               resultShots := totalShots;
               probabilities := toProbabilities counts |}
  | Throw _ => Failed "Failed to run simulation. Please try again."
  end.

End SimulationResults.

(* ================================================================= *)
(** ** Orchestrator (src/components/Layout.tsx) *)

Module Layout.

(** The four input channels, named as [activeTab] names them. *)
Inductive Tab : Type :=
| text
| template
| image
| file.

Definition Tab_eqb (a b : Tab) : bool :=
  match a, b with
  | text, text | template, template | image, image | file, file => true
  | _, _ => false
  end.

(** The component's state: [circuitData] is the parent's state handed down
    with its setter, the rest are the [useState] cells and the
    [pendingDataRef] ref of [Layout].  [timers] are the [setTimeout]
    callbacks registered and not yet run, oldest first; each one remembers
    the channel whose flag it clears.  They all wait 500 ms, so they run in
    the order they were registered, and nothing ever cancels one. *)
Record State : Type := mkState {
  circuitData : option CircuitResponse;
  simulationResults : option SimulationResults.Results;
  activeTab : Tab;
  error : option string;
  resetCounter : nat;
  isNaturalLanguageGenerating : bool;
  isTemplateGenerating : bool;
  isImageGenerating : bool;
  isFileGenerating : bool;
  showResults : bool;
  pendingDataRef : option CircuitResponse;
  timers : list Tab
}.

Definition initial : State :=
  {| circuitData := None;
     simulationResults := None;
     activeTab := text;
     error := None;
     resetCounter := 0;
     isNaturalLanguageGenerating := false;
     isTemplateGenerating := false;
     isImageGenerating := false;
     isFileGenerating := false;
     showResults := false;
     pendingDataRef := None;
     timers := [] |}.

Definition setCircuitData (data : option CircuitResponse) (s : State) : State :=
  mkState data (simulationResults s) (activeTab s) (error s) (resetCounter s)
    (isNaturalLanguageGenerating s) (isTemplateGenerating s)
    (isImageGenerating s) (isFileGenerating s) (showResults s)
    (pendingDataRef s) (timers s).

Definition setSimulationResults (r : option SimulationResults.Results)
  (s : State) : State :=
  mkState (circuitData s) r (activeTab s) (error s) (resetCounter s)
    (isNaturalLanguageGenerating s) (isTemplateGenerating s)
    (isImageGenerating s) (isFileGenerating s) (showResults s)
    (pendingDataRef s) (timers s).

Definition setActiveTab (t : Tab) (s : State) : State :=
  mkState (circuitData s) (simulationResults s) t (error s) (resetCounter s)
    (isNaturalLanguageGenerating s) (isTemplateGenerating s)
    (isImageGenerating s) (isFileGenerating s) (showResults s)
    (pendingDataRef s) (timers s).

Definition setError (e : option string) (s : State) : State :=
  mkState (circuitData s) (simulationResults s) (activeTab s) e
    (resetCounter s)
    (isNaturalLanguageGenerating s) (isTemplateGenerating s)
    (isImageGenerating s) (isFileGenerating s) (showResults s)
    (pendingDataRef s) (timers s).

Definition setResetCounter (f : nat -> nat) (s : State) : State :=
  mkState (circuitData s) (simulationResults s) (activeTab s) (error s)
    (f (resetCounter s))
    (isNaturalLanguageGenerating s) (isTemplateGenerating s)
    (isImageGenerating s) (isFileGenerating s) (showResults s)
    (pendingDataRef s) (timers s).

Definition setIsNaturalLanguageGenerating (b : bool) (s : State) : State :=
  mkState (circuitData s) (simulationResults s) (activeTab s) (error s)
    (resetCounter s) b (isTemplateGenerating s)
    (isImageGenerating s) (isFileGenerating s) (showResults s)
    (pendingDataRef s) (timers s).

Definition setIsTemplateGenerating (b : bool) (s : State) : State :=
  mkState (circuitData s) (simulationResults s) (activeTab s) (error s)
    (resetCounter s) (isNaturalLanguageGenerating s) b
    (isImageGenerating s) (isFileGenerating s) (showResults s)
    (pendingDataRef s) (timers s).

Definition setIsImageGenerating (b : bool) (s : State) : State :=
  mkState (circuitData s) (simulationResults s) (activeTab s) (error s)
    (resetCounter s) (isNaturalLanguageGenerating s) (isTemplateGenerating s)
    b (isFileGenerating s) (showResults s)
    (pendingDataRef s) (timers s).

Definition setIsFileGenerating (b : bool) (s : State) : State :=
  mkState (circuitData s) (simulationResults s) (activeTab s) (error s)
    (resetCounter s) (isNaturalLanguageGenerating s) (isTemplateGenerating s)
    (isImageGenerating s) b (showResults s)
    (pendingDataRef s) (timers s).

Definition setShowResults (b : bool) (s : State) : State :=
  mkState (circuitData s) (simulationResults s) (activeTab s) (error s)
    (resetCounter s) (isNaturalLanguageGenerating s) (isTemplateGenerating s)
    (isImageGenerating s) (isFileGenerating s) b
    (pendingDataRef s) (timers s).

Definition setPendingDataRef (data : option CircuitResponse) (s : State)
  : State :=
  mkState (circuitData s) (simulationResults s) (activeTab s) (error s)
    (resetCounter s) (isNaturalLanguageGenerating s) (isTemplateGenerating s)
    (isImageGenerating s) (isFileGenerating s) (showResults s)
    data (timers s).

Definition setTimers (q : list Tab) (s : State) : State :=
  mkState (circuitData s) (simulationResults s) (activeTab s) (error s)
    (resetCounter s) (isNaturalLanguageGenerating s) (isTemplateGenerating s)
    (isImageGenerating s) (isFileGenerating s) (showResults s)
    (pendingDataRef s) q.

(** The four handler families differ only in the flag they touch. *)
Definition setGenerating (c : Tab) (b : bool) : State -> State :=
  match c with
  | text => setIsNaturalLanguageGenerating b
  | template => setIsTemplateGenerating b
  | image => setIsImageGenerating b
  | file => setIsFileGenerating b
  end.

Definition generating (c : Tab) (s : State) : bool :=
  match c with
  | text => isNaturalLanguageGenerating s
  | template => isTemplateGenerating s
  | image => isImageGenerating s
  | file => isFileGenerating s
  end.

Definition handleStartGeneration (c : Tab) (s : State) : State :=
  setSimulationResults None (setShowResults false (setGenerating c true s)).

(** The callback handed to [setTimeout]: it reads the ref when it runs. *)
Definition commitPending (c : Tab) (s : State) : State :=
  setShowResults true
    (setGenerating c false
       (setError None
          (setCircuitData (pendingDataRef s)
             (setSimulationResults None s)))).

Definition handleGenerated (c : Tab) (data : CircuitResponse) (s : State)
  : State :=
  let s' := setPendingDataRef (Some data) s in
  setTimers (timers s' ++ [c]) s'.

Definition handleGenerationFailed (c : Tab) (errorMessage : string)
  (s : State) : State :=
  setError (Some errorMessage) (setGenerating c false s).

Definition handleStartNaturalLanguageGeneration := handleStartGeneration text.
Definition handleNaturalLanguageGenerated := handleGenerated text.
Definition handleNaturalLanguageGenerationFailed := handleGenerationFailed text.
Definition handleStartTemplateGeneration := handleStartGeneration template.
Definition handleTemplateGenerated := handleGenerated template.
Definition handleTemplateGenerationFailed := handleGenerationFailed template.
Definition handleStartImageGeneration := handleStartGeneration image.
Definition handleImageGenerated := handleGenerated image.
Definition handleImageGenerationFailed := handleGenerationFailed image.
Definition handleStartFileGeneration := handleStartGeneration file.
Definition handleFileGenerated := handleGenerated file.
Definition handleFileGenerationFailed := handleGenerationFailed file.

(** The [resetInputs] event it dispatches only reaches the adapters' own
    error and file state, which is not part of this state. *)
Definition handleResetCircuit (s : State) : State :=
  setIsFileGenerating false
    (setIsImageGenerating false
       (setIsTemplateGenerating false
          (setIsNaturalLanguageGenerating false
             (setResetCounter (fun prev => (prev + 1)%nat)
                (setShowResults false
                   (setError None
                      (setSimulationResults None
                         (setPendingDataRef None
                            (setCircuitData None s))))))))).

(** The effect that depends on [activeTab]. *)
Definition activeTabEffect (s : State) : State :=
  setError None
    (setIsFileGenerating false
       (setIsImageGenerating false
          (setIsTemplateGenerating false
             (setIsNaturalLanguageGenerating false
                (setSimulationResults None s))))).

Definition isGenerating (s : State) : bool :=
  isNaturalLanguageGenerating s || isTemplateGenerating s ||
  isImageGenerating s || isFileGenerating s.

(** A tab button: disabled while [isGenerating]; otherwise it sets the tab
    and resets, and the effect runs when the tab has changed. *)
Definition clickTab (t : Tab) (s : State) : State :=
  if isGenerating s then s
  else
    let s' := handleResetCircuit (setActiveTab t s) in
    if Tab_eqb (activeTab s) t then s' else activeTabEffect s'.

(** [circuitData && showResults && !isGenerating]: the four result views
    (explanation, diagram, code, measurement panel) are rendered. *)
Definition resultViewsRendered (s : State) : bool :=
  match circuitData s with
  | Some _ => showResults s && negb (isGenerating s)
  | None => false
  end.

(** The measurement panel's effect: once mounted with no results yet, it
    runs the simulation and stores what it produced. *)
Definition runSimulationEffect (s : State) : State :=
  if resultViewsRendered s then
    match circuitData s, simulationResults s with
    | Some data, None =>
        match SimulationResults.handleRunSimulation data with
        | SimulationResults.Shown r => setSimulationResults (Some r) s
        | SimulationResults.Failed _ => s
        end
    | _, _ => s
    end
  else s.

(** What can happen to the component: a call of one of its handlers by an
    adapter, a timer running, a tab button, the measurement panel's effect.
    The adapters hide their own buttons while their channel is Generating;
    those guards live outside [Layout] and are not assumed here, so a trace
    is any sequence of events. *)
Inductive Event : Type :=
| StartGeneration (c : Tab)
| Generated (c : Tab) (data : CircuitResponse)
| GenerationFailed (c : Tab) (errorMessage : string)
| TimerFires
| ResetCircuit
| ClickTab (t : Tab)
| SimulationEffect.

Definition step (s : State) (e : Event) : State :=
  match e with
  | StartGeneration c => handleStartGeneration c s
  | Generated c data => handleGenerated c data s
  | GenerationFailed c errorMessage => handleGenerationFailed c errorMessage s
  | TimerFires =>
      match timers s with
      | [] => s
      | c :: rest => commitPending c (setTimers rest s)
      end
  | ResetCircuit => handleResetCircuit s
  | ClickTab t => clickTab t s
  | SimulationEffect => runSimulationEffect s
  end.

Definition run (s : State) (trace : list Event) : State :=
  fold_left step trace s.

(** No response is staged in the trace. *)
Definition stagesNothing (trace : list Event) : bool :=
  forallb (fun e => match e with Generated _ _ => false | _ => true end) trace.

End Layout.

(* ================================================================= *)
(** ** Binary64 values, as [Prim2SF] decodes them *)

Module Binary64.

(** The sign of a value that is not [NaN]. *)
Definition signed (sx : bool) (x : spec_float) : Prop :=
  match x with
  | S754_nan => False
  | S754_zero s | S754_infinity s | S754_finite s _ _ => s = sx
  end.

(** The binary64 nearest to one tenth, the literal [0.1]. *)
Definition tenth : spec_float := S754_finite false 7205759403792794 (-56).

End Binary64.

(* ================================================================= *)
(** ** Diagram view (src/components/CircuitVisualization.tsx) *)

Module CircuitVisualization.

Local Open Scope float_scope.

(** Pixel sizes and zoom factors are JavaScript numbers: IEEE binary64
    values, computed here with Rocq's primitive floats. *)
Record Dimensions : Type := mkDimensions {
  width : float;
  height : float
}.

Record State : Type := mkState {
  zoomLevel : float;
  imageDimensions : Dimensions;
  containerDimensions : Dimensions;
  optimalZoom : float
}.

Definition initial : State :=
  {| zoomLevel := 1;
     imageDimensions := mkDimensions 0 0;
     containerDimensions := mkDimensions 0 0;
     optimalZoom := 1 |}.

(** [Math.max(a, b)] and [Math.min(a, b)]: [NaN] when an argument is
    [NaN], and [-0] counts as smaller than [+0]. *)
Definition mathMax (a b : float) : float :=
  if is_nan a || is_nan b then nan
  else if a <? b then b
  else if b <? a then a
  else if get_sign a then b else a.

Definition mathMin (a b : float) : float :=
  if is_nan a || is_nan b then nan
  else if a <? b then a
  else if b <? a then b
  else if get_sign a then a else b.

(** The effect that depends on [imageDimensions] and [containerDimensions]. *)
Definition optimalZoomEffect (s : State) : State :=
  if (0 <? width (imageDimensions s)) &&
     (0 <? width (containerDimensions s))
  then
    let widthRatio :=
      width (containerDimensions s) / width (imageDimensions s) in
    let newZoom := if widthRatio <? 1 then widthRatio else 1 in
    mkState newZoom (imageDimensions s) (containerDimensions s) newZoom
  else s.

Definition setImageDimensions (d : Dimensions) (s : State) : State :=
  optimalZoomEffect
    (mkState (zoomLevel s) d (containerDimensions s) (optimalZoom s)).

Definition setContainerDimensions (d : Dimensions) (s : State) : State :=
  optimalZoomEffect
    (mkState (zoomLevel s) (imageDimensions s) d (optimalZoom s)).

Definition handleFitToContainer (s : State) : State :=
  mkState (optimalZoom s) (imageDimensions s) (containerDimensions s)
    (optimalZoom s).

(** The zoom buttons: [Math.max(0.1, prev - 0.1)] and [prev + 0.1]. *)
Definition zoomOut (s : State) : State :=
  mkState (mathMax 0.1 (zoomLevel s - 0.1))
    (imageDimensions s) (containerDimensions s) (optimalZoom s).

Definition zoomIn (s : State) : State :=
  mkState (zoomLevel s + 0.1)
    (imageDimensions s) (containerDimensions s) (optimalZoom s).

End CircuitVisualization.

(* ================================================================= *)
(** ** Vocabulary of the properties *)

Module Props.
Import JS.

(** [a + b] on numbers. *)
Definition add (a b : number) : number :=
  match a, b with
  | Int x, Int y => Int (x + y)
  | _, _ => NaN
  end.

(** [Object.values(counts).reduce((sum, count) => sum + Number(count), 0)],
    the total that [renderHistogram] computes. *)
Definition sumOfCounts (counts : object number) : number :=
  fold_left add (values counts) (Int 0).

Definition nonNegative (x : number) : Prop :=
  exists z, x = Int z /\ 0 <= z.

Definition isBit (c : ascii) : bool :=
  Ascii.eqb c "0"%char || Ascii.eqb c "1"%char.

(** A string of [n] characters, each 0 or 1. *)
Definition isBitstring (n : Z) (s : string) : bool :=
  (Z.of_nat (String.length s) =? n) && forallb isBit (list_ascii_of_string s).

(** [n] characters, a 1 at index [i] and 0 everywhere else. *)
Definition oneHot (n i : Z) (s : string) : Prop :=
  Z.of_nat (String.length s) = n /\
  forall j : nat, Z.of_nat j < n ->
    String.get j s = Some (if Z.of_nat j =? i then "1"%char else "0"%char).

(** The count the W-state loop gives to its [i]-th outcome. *)
Definition wShare (n i : Z) : Z :=
  if i <? n - 1
  then SimulationResults.totalShots / n
  else SimulationResults.totalShots - (n - 1) * (SimulationResults.totalShots / n).

(** The key the W-state loop builds at index [i], without the exception
    that [repeat] cannot raise inside the loop. *)
Definition wKey (n i : Z) : string :=
  join (assign (replicate (Z.to_nat n) "0"%char) (Z.to_nat i) "1"%char).

Definition wEntry (n i : Z) : string * number := (wKey n i, Int (wShare n i)).

(** The value of a string of binary digits. *)
Definition binaryValue (l : list ascii) : Z :=
  fold_left (fun v c => 2 * v + (if Ascii.eqb c "1"%char then 1 else 0)) l 0.

(** The share of one outcome of the fallback branch is a proper part of the
    shots that remain. *)
Definition shareOk (r d k : Z) : bool :=
  match SimulationResults.share (Int r) k
          (PrimFloat.div (float_of_Z d) 10%float) with
  | Int c => (0 <=? c) && (c <? r)
  | NaN => false
  end.

(** [Math.floor(1024 / n)] evaluated in binary64. *)
Definition baseCountFloat (n : Z) : number :=
  floor (PrimFloat.div (float_of_Z SimulationResults.totalShots) (float_of_Z n)).

End Props.

(* ================================================================= *)
(** ** Scenarios *)

Module Scenarios.
Import Layout.

(** A response of the service used in the scenarios below. *)
Definition bellArtifact : CircuitResponse :=
  mkCircuitResponse (JS.lit "bell_state") (Some 2) None
    "explanation of a Bell pair" "diagram of a Bell pair" "code of a Bell pair".

Definition ghzArtifact : CircuitResponse :=
  mkCircuitResponse (JS.lit "ghz_state") (Some 3) None
    "explanation of a GHZ state" "diagram of a GHZ state" "code of a GHZ state".

(** Responses whose qubit count is below 1. *)
Definition negativeGhz : CircuitResponse :=
  mkCircuitResponse (JS.lit "ghz_state") (Some (-1)) None
    "explanation" "diagram" "code".

Definition zeroQubitGhz : CircuitResponse :=
  mkCircuitResponse (JS.lit "ghz_state") (Some 0) None
    "explanation" "diagram" "code".

(** A generation that succeeds and settles, then a retry that fails. *)
Definition failedRetry : list Event :=
  [ StartGeneration text; Generated text bellArtifact; TimerFires;
    StartGeneration text; GenerationFailed text "Service unavailable" ].

(** A is started, B is started, B's response is staged and commits, then
    A's response arrives and its timer runs. *)
Definition staleArrival : list Event :=
  [ StartGeneration text; StartGeneration template;
    Generated template ghzArtifact; TimerFires;
    Generated text bellArtifact; TimerFires ].

(** Nothing is committed and nothing is staged. *)
Definition cleared (s : State) : Prop :=
  circuitData s = None /\ pendingDataRef s = None.

End Scenarios.

(* ================================================================= *)
(** ** Text channel (src/components/NaturalLanguageInput.tsx) *)

Module NaturalLanguageInput.
Import JS.

Record State : Type := mkState {
  input : jsstr;
  error : option string
}.

(** The code units that [trim] strips: the WhiteSpace and LineTerminator
    productions of the language. *)
Definition isWhiteSpace (c : N) : bool :=
  existsb (N.eqb c)
    [ 9; 10; 11; 12; 13; 32; 160; 5760;
      8192; 8193; 8194; 8195; 8196; 8197; 8198; 8199; 8200; 8201; 8202;
      8232; 8233; 8239; 8287; 12288; 65279 ]%N.

(** [!input.trim()]: nothing is left once the white space is stripped. *)
Definition blank (s : jsstr) : bool := forallb isWhiteSpace s.

(** How the request to the service ends: with the circuit, or with a thrown
    value, which carries a message when it is an [Error]. *)
Inductive Response : Type :=
| Resolved (circuitData : CircuitResponse)
| Rejected (message : option string).

(** [handleSubmit], with the request run to its end before anything else
    happens to the page. *)
Definition handleSubmit (response : Response) (a : State) (l : Layout.State)
  : State * Layout.State :=
  if blank (input a)
  then (mkState (input a) (Some "Please enter a circuit description"%string), l)
  else
    let l1 := Layout.handleStartNaturalLanguageGeneration l in
    let a1 := mkState (input a) None in
    match response with
    | Resolved circuitData =>
        (a1, Layout.handleNaturalLanguageGenerated circuitData l1)
    | Rejected message =>
        let errorMessage :=
          match message with
          | Some m => m
          | None => "Failed to generate circuit. Please try again."%string
          end in
        (mkState (input a1) (Some errorMessage),
         Layout.handleNaturalLanguageGenerationFailed errorMessage l1)
    end.

End NaturalLanguageInput.

(* ================================================================= *)
(** ** Image and file channel (src/components/CircuitImporter.tsx) *)

Module CircuitImporter.

(** The [type] prop: ['image'] or ['file']. *)
Inductive ImporterType : Type :=
| imageImporter
| fileImporter.

(** What is read of a [File]: its name and its MIME type. *)
Record File : Type := mkFile {
  name : string;
  type : string
}.

Record State : Type := mkState {
  file : option File;
  error : option string
}.

(** [s.startsWith(p)]. *)
Definition startsWith (s p : string) : bool := String.prefix p s.

(** [list.includes(s)]. *)
Definition includes (list : list string) (s : string) : bool :=
  existsb (String.eqb s) list.

Definition droppableTypes : list string :=
  [ "application/json"; "text/plain"; "text/x-python";
    "application/octet-stream" ]%string.

Definition isImage (t : ImporterType) : bool :=
  match t with
  | imageImporter => true
  | fileImporter => false
  end.

(** The file input's change event; [selectedFile] is [e.target.files?.[0]]. *)
Definition handleFileChange (t : ImporterType) (selectedFile : option File)
  (s : State) : State :=
  match selectedFile with
  | None => s
  | Some f =>
      if isImage t && negb (startsWith (type f) "image/")
      then mkState (file s) (Some "Please upload an image file"%string)
      else mkState (Some f) None
  end.

(** The drop event; [files] is [e.dataTransfer.files]. *)
Definition handleDrop (t : ImporterType) (files : list File) (s : State)
  : State :=
  match files with
  | [] => s
  | droppedFile :: _ =>
      if isImage t && negb (startsWith (type droppedFile) "image/")
      then mkState (file s) (Some "Please upload an image file"%string)
      else if negb (isImage t) &&
              negb (includes droppableTypes (type droppedFile))
      then mkState (file s)
             (Some "Please upload a supported file format (.qasm, .py, .json, .txt)"%string)
      else mkState (Some droppedFile) None
  end.

Definition resetFileInput (isGenerating : bool) (s : State) : State :=
  if negb isGenerating then mkState None None else s.

End CircuitImporter.

(* ================================================================= *)
(** ** Diagram payloads (src/services/api.ts) and their sizes
       (src/components/CircuitVisualization.tsx) *)

Module Api.

(** Only [width] and [height] of the metadata are read. *)
Record CircuitImageMetadata : Type := mkMetadata {
  width : float;
  height : float
}.

(** [string | CircuitImage | null | undefined]. *)
Inductive Image : Type :=
| NoImage
| Legacy (source : string)
| Enhanced (image : string) (metadata : CircuitImageMetadata).

Definition isEnhancedImage (image : Image) : bool :=
  match image with
  | Enhanced _ _ => true
  | _ => false
  end.

Definition getImageSource (image : Image) : string :=
  match image with
  | NoImage => EmptyString
  | Legacy source => source
  | Enhanced source _ => source
  end.

Definition getImageMetadata (image : Image) : option CircuitImageMetadata :=
  match image with
  | Enhanced _ metadata => Some metadata
  | _ => None
  end.

End Api.

Module Diagram.
Import CircuitVisualization.

(** A number used as a condition: [0], [-0] and [NaN] are falsy. *)
Definition truthy (x : float) : bool :=
  negb (PrimFloat.is_zero x || PrimFloat.is_nan x).

(** The effect that depends on [circuitData]; [currentVis] is what
    [getCurrentVisualization] returns. *)
Definition metadataEffect (currentVis : Api.Image) (s : State) : State :=
  match Api.getImageMetadata currentVis with
  | Some metadata =>
      if truthy (Api.width metadata) && truthy (Api.height metadata)
      then setImageDimensions
             (mkDimensions (Api.width metadata) (Api.height metadata)) s
      else setImageDimensions (mkDimensions 0 0) s
  | None => setImageDimensions (mkDimensions 0 0) s
  end.

(** The image's load event, with its natural size. *)
Definition handleImageLoad (currentVis : Api.Image)
  (naturalWidth naturalHeight : float) (s : State) : State :=
  match Api.getImageMetadata currentVis with
  | None => setImageDimensions (mkDimensions naturalWidth naturalHeight) s
  | Some _ => s
  end.

(** The two zoom buttons. *)
Inductive ZoomButton : Type :=
| ZoomOut
| ZoomIn.

Definition press (s : State) (b : ZoomButton) : State :=
  match b with
  | ZoomOut => zoomOut s
  | ZoomIn => zoomIn s
  end.

End Diagram.

(* ================================================================= *)
(** ** Histogram (renderHistogram of src/components/SimulationResults.tsx) *)

Module Histogram.
Import JS SimulationResults.

Inductive SortOrder : Type :=
| probability
| state.

Definition Entry : Type := (string * number)%type.

(** The value of [Math.max(...list)]: minus infinity for an empty list. *)
Inductive Maximum : Type :=
| MinusInfinity
| Finite (x : number).

Definition larger (acc : Maximum) (x : number) : Maximum :=
  match acc, x with
  | MinusInfinity, _ => Finite x
  | Finite (Int a), Int b => Finite (Int (Z.max a b))
  | Finite _, _ => Finite NaN
  end.

Definition mathMax (l : list number) : Maximum :=
  fold_left larger l MinusInfinity.

(** [list.reduce((sum, [_, count]) => sum + Number(count), 0)]. *)
Definition sumOfEntries (l : list Entry) : number :=
  fold_left Props.add (map snd l) (Int 0).

Definition maxDisplayStates : nat := 16.

(** The numbers the histogram is drawn from. *)
Record View : Type := mkView {
  shots : number;
  maxCount : Maximum;
  displayEntries : list Entry;
  hasMoreStates : bool;
  totalDisplayedCount : number;
  otherStatesCount : number
}.

(** The columns of the grid: one for each entry of [displayEntries], then
    the Other column when [hasMoreStates].  A bar is as tall as its count
    divided by [maxCount]. *)
Inductive Column : Type :=
| StateColumn (state : string) (count : number)
| OtherColumn (count : number).

Definition columns (v : View) : list Column :=
  map (fun entry => StateColumn (fst entry) (snd entry)) (displayEntries v) ++
  (if hasMoreStates v then [OtherColumn (otherStatesCount v)] else []).

(** A stable sort by a comparator, as the language requires of
    [Array.prototype.sort]: an element moves past the later ones that the
    comparator puts strictly before it, and no further.  (It is the
    instance at which the properties of the histogram are shown to apply.) *)
Fixpoint insertSorted (compare : Entry -> Entry -> number) (x : Entry)
  (l : list Entry) : list Entry :=
  match l with
  | [] => [x]
  | y :: l' =>
      match compare x y with
      | Int c => if 0 <? c then y :: insertSorted compare x l' else x :: l
      | NaN => x :: l
      end
  end.

Definition stableSort (compare : Entry -> Entry -> number) (l : list Entry)
  : list Entry :=
  fold_right (insertSorted compare) [] l.

Section Rendering.

(** [Object.entries] and [Array.prototype.sort] are taken as the engine
    provides them, and so is [localeCompare]. *)
Variable entries : SimulationCounts -> list Entry.
Variable sort : (Entry -> Entry -> number) -> list Entry -> list Entry.
Variable localeCompare : string -> string -> number.

(** [(a, b) => Number(b[1]) - Number(a[1])]. *)
Definition byCount (a b : Entry) : number := sub (snd b) (snd a).

(** [(a, b) => a[0].localeCompare(b[0])]. *)
Definition byState (a b : Entry) : number := localeCompare (fst a) (fst b).

Definition renderHistogram (results : Results) (sortOrder : SortOrder)
  : View :=
  let counts := counts results in
  let totalShots :=
    if resultShots results =? 0
    then sumOfEntries (entries counts)
    else Int (resultShots results) in
  let maxCount := mathMax (map snd (entries counts)) in
  let sortedEntries :=
    match sortOrder with
    | probability => sort byCount (entries counts)
    | state => sort byState (entries counts)
    end in
  let hasMoreStates := (maxDisplayStates <? List.length sortedEntries)%nat in
  let displayEntries :=
    if hasMoreStates then firstn maxDisplayStates sortedEntries
    else sortedEntries in
  let totalDisplayedCount := sumOfEntries displayEntries in
  let otherStatesCount := sub totalShots totalDisplayedCount in
  mkView totalShots maxCount displayEntries hasMoreStates
         totalDisplayedCount otherStatesCount.

End Rendering.

End Histogram.

(* ================================================================= *)
(** ** Vocabulary of the further properties *)

Module MoreProps.
Import JS.

(** The rational a finite binary64 stands for. *)
Definition exactQ (f : float) : option Q :=
  match Prim2SF f with
  | S754_zero _ => Some 0%Q
  | S754_finite s m e =>
      let n := if s then Z.neg m else Z.pos m in
      Some match e with
           | Z0 => inject_Z n
           | Z.pos p => inject_Z (n * 2 ^ Z.pos p)
           | Z.neg p => Qmake n (2 ^ p)
           end
  | S754_infinity _ => None
  | S754_nan => None
  end.

(** A count divided by the 1024 shots is a binary64 with no rounding. *)
Definition probabilityExact (c : Z) : bool :=
  match exactQ (PrimFloat.div (float_of_Z c)
                   (float_of_Z SimulationResults.totalShots)) with
  | Some q => Qeq_bool q (Qmake c 1024)
  | None => false
  end.

(** The probability entry that goes with an entry of the counts. *)
Definition probabilityOf (entry : string * number) : string * float :=
  (fst entry,
   PrimFloat.div (to_float (snd entry))
     (float_of_Z SimulationResults.totalShots)).

(** The measurement table on the page was computed from the artifact on
    the page. *)
Definition tableFresh (s : Layout.State) : Prop :=
  forall r, Layout.simulationResults s = Some r ->
    exists data,
      Layout.circuitData s = Some data /\
      SimulationResults.handleRunSimulation data = SimulationResults.Shown r.

(** Nothing is committed, staged or tabulated. *)
Definition empty (s : Layout.State) : Prop :=
  Layout.circuitData s = None /\ Layout.pendingDataRef s = None /\
  Layout.simulationResults s = None.

(** The first code unit of a type string, reduced as the fallback branch
    reduces it. *)
Definition hashClass (t : jsstr) : number := rem (charCodeAt0 t) 10.

(** A W state wide enough for the histogram to leave outcomes out. *)
Definition wState20 : CircuitResponse :=
  mkCircuitResponse (lit "w_state") (Some 20) None
    "explanation of a W state" "diagram of a W state" "code of a W state".

Definition isSpecial (t : jsstr) : bool :=
  jsstr_eqb t (lit "bell_state") || jsstr_eqb t (lit "ghz_state") ||
  jsstr_eqb t (lit "w_state").

End MoreProps.

(* ================================================================= *)
(** ** The orchestrator: gating, staging, start *)

Module LayoutFacts.
Import Layout Scenarios.

Lemma rendered_iff (s : State) :
  resultViewsRendered s = true <->
  circuitData s <> None /\ showResults s = true /\ isGenerating s = false.
Proof.
  unfold resultViewsRendered.
  destruct (circuitData s) as [a|]; split.
  - intros H. apply andb_true_iff in H as [Hs Hg].
    apply negb_true_iff in Hg. repeat split; auto. discriminate.
  - intros (_ & Hs & Hg). now rewrite Hs, Hg.
  - discriminate.
  - intros (H & _). now elim H.
Qed.

Lemma isGenerating_false (s : State) :
  isGenerating s = false <-> forall c, generating c s = false.
Proof.
  unfold isGenerating. split.
  - intros H c.
    apply orb_false_iff in H as [H Hf].
    apply orb_false_iff in H as [H Hi].
    apply orb_false_iff in H as [Hn Ht].
    now destruct c.
  - intros H.
    pose proof (H text) as Hn. pose proof (H template) as Ht.
    pose proof (H image) as Hi. pose proof (H file) as Hf.
    simpl in *. now rewrite Hn, Ht, Hi, Hf.
Qed.

Lemma cleared_reset (s : State) : cleared (handleResetCircuit s).
Proof. split; reflexivity. Qed.

Lemma cleared_clickTab (t : Tab) (s : State) :
  isGenerating s = false -> cleared (clickTab t s).
Proof.
  intros Hg. unfold clickTab. rewrite Hg.
  destruct (Tab_eqb (activeTab s) t); split; reflexivity.
Qed.

Lemma cleared_step (s : State) (e : Event) :
  stagesNothing [e] = true -> cleared s -> cleared (step s e).
Proof.
  intros He [Hc Hp]. destruct e as [c|c d|c m| | |t|]; simpl in *.
  - destruct c; split; assumption.
  - discriminate.
  - destruct c; split; assumption.
  - destruct (timers s) as [|c rest]; [now split|].
    destruct c; split; simpl; assumption.
  - apply cleared_reset.
  - unfold clickTab. destruct (isGenerating s); [now split|].
    destruct (Tab_eqb (activeTab s) t); split; reflexivity.
  - unfold runSimulationEffect, resultViewsRendered. rewrite Hc. now split.
Qed.

Lemma cleared_run (trace : list Event) :
  forall s, stagesNothing trace = true -> cleared s -> cleared (run s trace).
Proof.
  induction trace as [|e trace IH]; intros s Ht Hs; [exact Hs|].
  simpl in Ht. apply andb_true_iff in Ht as [He Ht].
  simpl. apply IH; [exact Ht|].
  apply cleared_step; [simpl; now rewrite He | exact Hs].
Qed.

(** C1 as stated fails: after a committed generation and a failed retry the
    artifact is still held, no channel is in flight, and the result views
    are not rendered. *)
Lemma gating_counterexample :
  let s := run initial failedRetry in
  circuitData s = Some bellArtifact /\
  isGenerating s = false /\
  resultViewsRendered s = false /\
  ~ (resultViewsRendered s = true <->
     circuitData s <> None /\ isGenerating s = false).
Proof.
  vm_compute. repeat split; try reflexivity.
  intros [_ H].
  assert (Hf : false = true) by (apply H; split; [discriminate | reflexivity]).
  discriminate Hf.
Qed.

(** C1 (amended): in every reachable state the result views are rendered
    exactly when an artifact is held, the showResults flag is set and no
    channel is Generating; so they are never shown without an artifact or
    while any channel is Generating, and when a settle timer commits a staged
    artifact and leaves no channel in flight they are rendered at once. *)
Theorem gating_invariant (trace : list Event) :
  let s := run initial trace in
  (resultViewsRendered s = true <->
   circuitData s <> None /\ showResults s = true /\ isGenerating s = false) /\
  (resultViewsRendered s = true ->
   circuitData s <> None /\ forall c, generating c s = false) /\
  (forall c rest data,
     timers s = c :: rest -> pendingDataRef s = Some data ->
     isGenerating (step s TimerFires) = false ->
     circuitData (step s TimerFires) = Some data /\
     resultViewsRendered (step s TimerFires) = true).
Proof.
  intros s. split; [apply rendered_iff|]. split.
  - intros H. apply rendered_iff in H as (Hc & _ & Hg).
    split; [exact Hc|]. now apply isGenerating_false.
  - intros c rest data Ht Hp Hg.
    assert (Hc : circuitData (step s TimerFires) = Some data).
    { simpl. rewrite Ht. destruct c; simpl; exact Hp. }
    split; [exact Hc|].
    apply rendered_iff. repeat split.
    + rewrite Hc. discriminate.
    + simpl. rewrite Ht. now destruct c.
    + exact Hg.
Qed.

Lemma gating_invariant_witness :
  let s := run initial [StartGeneration text; Generated text bellArtifact] in
  circuitData (step s TimerFires) = Some bellArtifact /\
  resultViewsRendered (step s TimerFires) = true.
Proof.
  exact (proj2 (proj2 (gating_invariant
                         [StartGeneration text; Generated text bellArtifact]))
           text [] bellArtifact eq_refl eq_refl eq_refl).
Defined.

(** C2 as stated fails: in the race scenario the artifact committed after
    both attempts settle is A's (the Bell artifact), not B's. *)
Lemma race_discard_counterexample :
  circuitData (run initial staleArrival) = Some bellArtifact /\
  circuitData (run initial staleArrival) <> Some ghzArtifact.
Proof. split; [reflexivity | discriminate]. Qed.

(** C2 (amended): a reset, direct or through a tab click (accepted only
    while no channel is Generating), empties the single pending slot, and no
    timer that runs afterwards commits anything unless a response is staged
    again; a tab click while a channel is Generating changes nothing; the
    slot holds the response staged last, and a settle timer commits whatever
    the slot holds when it runs, so any response staged while no timer is
    waiting is committed by its timer, whichever attempt it answers. *)
Theorem pending_slot_discipline (s : State) :
  (forall c data trace,
     stagesNothing trace = true ->
     circuitData (run (handleResetCircuit (handleGenerated c data s)) trace)
       = None) /\
  (forall t trace,
     isGenerating s = false -> stagesNothing trace = true ->
     circuitData (run (clickTab t s) trace) = None) /\
  (forall t, isGenerating s = true -> clickTab t s = s) /\
  (forall c1 d1 c2 d2,
     pendingDataRef (run s [Generated c1 d1; Generated c2 d2]) = Some d2) /\
  (forall c rest,
     timers s = c :: rest ->
     circuitData (step s TimerFires) = pendingDataRef s) /\
  (forall c data,
     timers s = [] ->
     circuitData (run s [Generated c data; TimerFires]) = Some data).
Proof.
  repeat split.
  - intros c data trace Ht.
    apply (cleared_run trace); [exact Ht | apply cleared_reset].
  - intros t trace Hg Ht.
    apply (cleared_run trace); [exact Ht | now apply cleared_clickTab].
  - intros t Hg. unfold clickTab. now rewrite Hg.
  - intros c rest Ht. simpl. rewrite Ht. now destruct c.
  - intros c data Ht. simpl. rewrite Ht. now destruct c.
Qed.

Lemma pending_slot_discipline_witness :
  circuitData
    (run (handleResetCircuit
            (handleGenerated text bellArtifact
               (handleStartGeneration text initial)))
         [TimerFires; SimulationEffect]) = None.
Proof.
  exact (proj1 (pending_slot_discipline (handleStartGeneration text initial))
           text bellArtifact [TimerFires; SimulationEffect] eq_refl).
Defined.

(** C3 as stated fails: starting a generation on top of a committed artifact
    and its measurement table leaves the artifact in the state. *)
Lemma start_generation_counterexample :
  let s := run initial [StartGeneration text; Generated text bellArtifact;
                        TimerFires; SimulationEffect] in
  circuitData s = Some bellArtifact /\
  simulationResults s <> None /\
  circuitData (handleStartGeneration text s) = Some bellArtifact /\
  circuitData (handleStartGeneration text s) <> None.
Proof. vm_compute. repeat split; discriminate. Qed.

(** C3 (amended): starting a generation on a channel marks that channel
    Generating, clears the measurement table and the showResults flag, so the
    result views are not rendered; the committed artifact itself and the
    pending slot are left as they were. *)
Theorem start_generation_postcondition (c : Tab) (s : State) :
  let s' := handleStartGeneration c s in
  generating c s' = true /\
  isGenerating s' = true /\
  simulationResults s' = None /\
  showResults s' = false /\
  resultViewsRendered s' = false /\
  circuitData s' = circuitData s /\
  pendingDataRef s' = pendingDataRef s.
Proof.
  destruct c; simpl; unfold resultViewsRendered, isGenerating; simpl;
    repeat split; try reflexivity;
    repeat rewrite orb_true_r; try reflexivity;
    destruct (circuitData s); reflexivity.
Qed.

End LayoutFacts.

(* ================================================================= *)
(** ** Binary64 arithmetic: order, signs, and the values that are numbers *)

Module Binary64Facts.
Import CircuitVisualization Binary64.

Lemma shr_1_nonneg mrs : 0 <= shr_m mrs -> 0 <= shr_m (shr_1 mrs).
Proof.
  destruct mrs as [m r s]. cbn [shr_m shr_1].
  destruct m as [|[p|p|]|[p|p|]]; cbn [shr_m]; lia.
Qed.

Lemma iter_shr_1_nonneg p :
  forall mrs, 0 <= shr_m mrs -> 0 <= shr_m (iter_pos shr_1 p mrs).
Proof.
  induction p as [p IH|p IH|]; intros mrs H; cbn [iter_pos].
  - apply IH, IH, shr_1_nonneg, H.
  - apply IH, IH, H.
  - apply shr_1_nonneg, H.
Qed.

Lemma shr_fexp_nonneg m e l :
  0 <= m -> 0 <= shr_m (fst (shr_fexp prec emax m e l)).
Proof.
  intros H. unfold shr_fexp, shr.
  assert (H0 : 0 <= shr_m (shr_record_of_loc m l)).
  { destruct l as [|[]]; exact H. }
  destruct (fexp prec emax (Zdigits2 m + e) - e); cbn [fst]; try exact H0.
  apply iter_shr_1_nonneg, H0.
Qed.

Lemma round_nearest_even_nonneg m l : 0 <= m -> 0 <= round_nearest_even m l.
Proof.
  intros H. destruct l as [|[]]; cbn [round_nearest_even]; try lia.
  destruct (Z.even m); lia.
Qed.

Lemma binary_round_aux_signed sx mx ex lx :
  0 <= mx -> signed sx (binary_round_aux prec emax sx mx ex lx).
Proof.
  intros H. unfold binary_round_aux.
  pose proof (shr_fexp_nonneg mx ex lx H) as H1.
  destruct (shr_fexp prec emax mx ex lx) as [mrs' e']. cbn [fst] in H1.
  pose proof (shr_fexp_nonneg _ e' loc_Exact
                (round_nearest_even_nonneg _ (loc_of_shr_record mrs') H1)) as H2.
  destruct (shr_fexp prec emax _ e' loc_Exact) as [mrs'' e'']. cbn [fst] in H2.
  destruct (shr_m mrs'') as [|m|m]; [reflexivity| |lia].
  destruct (e'' <=? emax - prec); reflexivity.
Qed.

Lemma binary_normalize_signed m e :
  m <> 0 -> signed (m <? 0) (binary_normalize prec emax m e false).
Proof.
  intros H. destruct m as [|m|m]; [congruence| |];
    unfold binary_normalize, binary_round;
    destruct (shl_align _ _ _) as [mz ez];
    apply binary_round_aux_signed; lia.
Qed.

Lemma binary_normalize_not_nan m e :
  binary_normalize prec emax m e false <> S754_nan.
Proof.
  destruct m as [|m|m]; [discriminate| |];
    intros N;
    [pose proof (binary_normalize_signed (Z.pos m) e) as S
    |pose proof (binary_normalize_signed (Z.neg m) e) as S];
    rewrite N in S; apply S; discriminate.
Qed.

Lemma SFdiv_finite_signed sx mx ex sy my ey :
  signed (xorb sx sy) (SF64div (S754_finite sx mx ex) (S754_finite sy my ey)).
Proof.
  unfold SF64div, SFdiv.
  destruct (SFdiv_core_binary prec emax (Z.pos mx) ex (Z.pos my) ey)
    as [[mz ez] lz] eqn:E.
  apply binary_round_aux_signed.
  unfold SFdiv_core_binary in E. cbv zeta in E.
  match type of E with
  | context [Z.div_eucl ?a ?b] =>
      assert (Ha : 0 <= a);
      [| pose proof (Z_div_mod a b eq_refl) as D;
         destruct (Z.div_eucl a b) as [q r] ]
  end.
  - destruct (ex - ey - _); try lia. apply Z.shiftl_nonneg. lia.
  - inversion E; subst. nia.
Qed.

(** *** Comparison *)

Lemma SFcompare_antisym x y :
  SFcompare y x = option_map CompOpp (SFcompare x y).
Proof.
  destruct x as [sx|sx| |sx mx ex], y as [sy|sy| |sy my ey];
    try reflexivity;
    try (destruct sx; reflexivity); try (destruct sy; reflexivity);
    try (destruct sx, sy; reflexivity).
  cbn [SFcompare option_map]. f_equal.
  destruct sx, sy; try reflexivity;
    rewrite (Z.compare_antisym ex ey);
    destruct (ex ?= ey); cbn [CompOpp]; try reflexivity;
    change (PosDef.Pos.compare_cont Eq my mx) with (Pos.compare my mx);
    change (PosDef.Pos.compare_cont Eq mx my) with (Pos.compare mx my);
    rewrite (Pos.compare_antisym mx my); reflexivity.
Qed.

Lemma SFcompare_eq x s m e :
  SFcompare x (S754_finite s m e) = Some Eq -> x = S754_finite s m e.
Proof.
  destruct x as [sx|sx| |sx mx ex]; cbn [SFcompare];
    try (destruct s; discriminate); try (destruct sx; discriminate);
    try discriminate.
  destruct sx, s; try discriminate;
    destruct (ex ?= e) eqn:Ee; try discriminate;
    apply Z.compare_eq in Ee; subst ex; intros H; injection H as H.
  - apply (f_equal CompOpp) in H. rewrite CompOpp_involutive in H.
    apply Pos.compare_eq in H. now subst.
  - apply Pos.compare_eq in H. now subst.
Qed.

Lemma is_nan_spec f : is_nan f = true <-> Prim2SF f = S754_nan.
Proof.
  unfold is_nan. rewrite FloatAxioms.eqb_spec, negb_true_iff. unfold SFeqb.
  destruct (Prim2SF f) as [s|s| |s m e]; cbn [SFcompare].
  - split; discriminate.
  - destruct s; split; discriminate.
  - split; reflexivity.
  - destruct s; rewrite Z.compare_refl, Pos.compare_cont_refl;
      split; discriminate.
Qed.

Lemma is_nan_false f : is_nan f = false <-> Prim2SF f <> S754_nan.
Proof.
  rewrite <- is_nan_spec. destruct (is_nan f); split; congruence.
Qed.

Lemma ltb_asym (x y : float) : (x <? y)%float = true -> (y <? x)%float = false.
Proof.
  rewrite !FloatAxioms.ltb_spec. unfold SFltb.
  rewrite (SFcompare_antisym (Prim2SF x) (Prim2SF y)).
  destruct (SFcompare (Prim2SF x) (Prim2SF y)) as [[]|]; cbn; congruence.
Qed.

Lemma ltb_leb (x y : float) : (x <? y)%float = true -> (x <=? y)%float = true.
Proof.
  rewrite FloatAxioms.ltb_spec, FloatAxioms.leb_spec. unfold SFltb, SFleb.
  destruct (SFcompare (Prim2SF x) (Prim2SF y)) as [[]|]; congruence.
Qed.

Lemma leb_not_ltb (x y : float) :
  (x <=? y)%float = true -> (y <? x)%float = false.
Proof.
  rewrite FloatAxioms.ltb_spec, FloatAxioms.leb_spec. unfold SFltb, SFleb.
  rewrite (SFcompare_antisym (Prim2SF x) (Prim2SF y)).
  destruct (SFcompare (Prim2SF x) (Prim2SF y)) as [[]|]; cbn; congruence.
Qed.

Lemma ltb_not_nan (x y : float) : (x <? y)%float = true -> is_nan x = false.
Proof.
  rewrite FloatAxioms.ltb_spec. intros H. apply is_nan_false. intros E.
  rewrite E in H. discriminate.
Qed.

(** Neither below nor above a finite value, and a number: equal to it. *)
Lemma trichotomy_one (r : float) :
  is_nan r = false -> (r <? 1)%float = false -> (1 <? r)%float = false ->
  r = 1%float.
Proof.
  intros Hn H1 H2. apply Prim2SF_inj.
  apply is_nan_false in Hn.
  rewrite FloatAxioms.ltb_spec in H1, H2. unfold SFltb in H1, H2.
  rewrite (SFcompare_antisym (Prim2SF r) (Prim2SF 1)) in H2.
  change (Prim2SF 1) with (S754_finite false 4503599627370496 (-52)) in *.
  apply SFcompare_eq.
  destruct (SFcompare (Prim2SF r) _) as [[]|] eqn:C; try discriminate;
    try reflexivity.
  destruct (Prim2SF r) as [s|s| |s m e]; try congruence;
    cbn [SFcompare] in C; discriminate.
Qed.

(** The branch of the source is [Math.min(1, ratio)] on every ratio that is
    a number. *)
Lemma newZoom_min (r : float) :
  is_nan r = false ->
  (if (r <? 1)%float then r else 1%float) = mathMin 1 r.
Proof.
  intros Hn. unfold mathMin. rewrite Hn.
  change (is_nan 1) with false. cbn [orb].
  destruct (r <? 1)%float eqn:L.
  - now rewrite (ltb_asym _ _ L).
  - destruct (1 <? r)%float eqn:G; [reflexivity|].
    change (get_sign 1) with false. cbn iota.
    symmetry. now apply trichotomy_one.
Qed.


(** *** Positive and finite operands *)

Lemma positive_spec (x : float) :
  (0 <? x)%float = true ->
  Prim2SF x = S754_infinity false \/
  exists m e, Prim2SF x = S754_finite false m e.
Proof.
  rewrite FloatAxioms.ltb_spec. unfold SFltb.
  change (Prim2SF 0) with (S754_zero false).
  destruct (Prim2SF x) as [s|s| |s m e]; cbn [SFcompare]; try discriminate.
  - destruct s; [discriminate|]. now left.
  - destruct s; [discriminate|]. right. now exists m, e.
Qed.

Lemma is_finite_spec (x : float) :
  is_finite x = true -> forall s, Prim2SF x <> S754_infinity s.
Proof.
  unfold is_finite, is_infinity. intros H s E.
  rewrite FloatAxioms.eqb_spec, FloatAxioms.abs_spec, E in H.
  change (Prim2SF infinity) with (S754_infinity false) in H.
  rewrite orb_true_r in H. discriminate.
Qed.

(** A quotient of a finite positive value by a positive one is a number. *)
Lemma div_not_nan (c i : float) :
  (0 <? i)%float = true -> (0 <? c)%float = true -> is_finite c = true ->
  is_nan (c / i)%float = false.
Proof.
  intros Hi Hc Hf. apply is_nan_false. rewrite FloatAxioms.div_spec.
  destruct (positive_spec c Hc) as [E|(mc & ec & E)];
    [now apply is_finite_spec with (s := false) in Hf|].
  rewrite E.
  destruct (positive_spec i Hi) as [E'|(mi & ei & E')]; rewrite E'.
  - discriminate.
  - pose proof (SFdiv_finite_signed false mc ec false mi ei) as S.
    intros N. rewrite N in S. exact S.
Qed.

(** *** Subtracting one tenth *)

Lemma SFsub_tenth_not_nan x :
  x <> S754_nan -> SF64sub x tenth <> S754_nan.
Proof.
  intros Hx. unfold SF64sub, SFsub, tenth.
  destruct x as [s|s| |s m e]; try discriminate; try congruence.
  cbv zeta. apply binary_normalize_not_nan.
Qed.

Lemma digits2_pos_bound m : Z.pos m < 2 ^ Z.pos (digits2_pos m).
Proof.
  induction m as [m IH|m IH|]; cbn [digits2_pos];
    rewrite ?Pos2Z.inj_succ, ?Z.pow_succ_r by lia; lia.
Qed.

Lemma valid_mantissa_bound s m e :
  valid_binary (S754_finite s m e) = true -> Z.pos m < 2 ^ 53.
Proof.
  cbn [SpecFloat.valid_binary]. unfold bounded, canonical_mantissa, fexp.
  intros H. apply andb_prop in H. destruct H as [H _].
  apply Z.eqb_eq in H.
  pose proof (digits2_pos_bound m) as B.
  assert (D : Z.pos (digits2_pos m) <= 53).
  { change prec with 53 in H. lia. }
  apply Z.lt_le_trans with (1 := B).
  apply Z.pow_le_mono_r; lia.
Qed.

Lemma iter_xO_double m d : 2 * Z.pos m <= Z.pos (Pos.iter xO m d).
Proof.
  induction d as [|d IH] using Pos.peano_ind.
  - cbn. lia.
  - rewrite Pos.iter_succ. lia.
Qed.

Lemma compare_cont_le (p q : positive) :
  match Pos.compare_cont Eq p q with Gt => false | _ => true end = true ->
  (p <= q)%positive.
Proof.
  unfold Pos.le, Pos.compare. destruct (Pos.compare_cont Eq p q); congruence.
Qed.

(** At or below one tenth, subtracting one tenth leaves zero or a negative
    value. *)
Lemma SFsub_tenth_below x :
  valid_binary x = true -> SFleb x tenth = true ->
  SFltb tenth (SF64sub x tenth) = false.
Proof.
  intros Hv Hle. unfold SF64sub, SFsub, SFleb, SFltb, tenth in *.
  destruct x as [s|s| |s m e]; cbn [SFcompare] in *; try discriminate.
  - reflexivity.
  - destruct s; [reflexivity|discriminate].
  - cbv zeta.
    match goal with
    | |- context [binary_normalize _ _ ?d ?ez _] =>
        assert (Hd : d <= 0); [|generalize dependent d; generalize ez]
    end.
    + destruct s; [cbn [cond_Zopp]; lia|].
      pose proof (valid_mantissa_bound _ _ _ Hv) as Hm.
      change (2 ^ 53) with 9007199254740992 in Hm. clear Hv.
      destruct (e ?= -56) eqn:C; try discriminate.
      * apply Z.compare_eq in C. subst e.
        change (Z.min (-56) (-56)) with (-56).
        unfold shl_align. rewrite Z.sub_diag. cbn [fst cond_Zopp].
        apply compare_cont_le, Pos2Z.pos_le_pos in Hle. lia.
      * rewrite Z.compare_lt_iff in C.
        rewrite Z.min_l by lia.
        unfold shl_align. rewrite Z.sub_diag. cbn [fst cond_Zopp].
        destruct (e - -56) as [|p|p] eqn:Ep; try lia.
        cbn [fst].
        pose proof (iter_xO_double 7205759403792794 p). lia.
    + intros ez z Hz. destruct z as [|z|z].
      * reflexivity.
      * lia.
      * pose proof (binary_normalize_signed (Z.neg z) ez ltac:(discriminate))
          as S.
        change (Z.neg z <? 0) with true in S.
        destruct (binary_normalize prec emax (Z.neg z) ez false)
          as [s'|s'| |s' m' e']; cbn [signed] in S;
          try contradiction; try subst s'; reflexivity.
Qed.

Lemma sub_tenth_not_nan (z : float) :
  is_nan z = false -> is_nan (z - 0.1)%float = false.
Proof.
  intros H. apply is_nan_false. apply is_nan_false in H.
  rewrite FloatAxioms.sub_spec. change (Prim2SF 0.1) with tenth.
  now apply SFsub_tenth_not_nan.
Qed.

Lemma sub_tenth_below (z : float) :
  (z <=? 0.1)%float = true -> (0.1 <? z - 0.1)%float = false.
Proof.
  intros H. rewrite FloatAxioms.leb_spec in H.
  rewrite FloatAxioms.ltb_spec, FloatAxioms.sub_spec.
  change (Prim2SF 0.1) with tenth in *.
  apply SFsub_tenth_below; [apply Prim2SF_valid|exact H].
Qed.

Lemma leb_not_nan (x y : float) : (x <=? y)%float = true -> is_nan x = false.
Proof.
  rewrite FloatAxioms.leb_spec. intros H. apply is_nan_false. intros E.
  rewrite E in H. discriminate.
Qed.

(** [Math.max(0.1, z - 0.1)]. *)
Lemma floor_reached (z : float) :
  (z <=? 0.1)%float = true -> mathMax 0.1 (z - 0.1) = 0.1%float.
Proof.
  intros H. unfold mathMax.
  rewrite (sub_tenth_not_nan z (leb_not_nan _ _ H)).
  rewrite (sub_tenth_below z H).
  change (is_nan 0.1) with false. change (get_sign 0.1) with false.
  cbn [orb]. now destruct (z - 0.1 <? 0.1)%float.
Qed.

Lemma floor_held (z : float) :
  is_nan z = false -> (0.1 <=? mathMax 0.1 (z - 0.1))%float = true.
Proof.
  intros H. unfold mathMax.
  rewrite (sub_tenth_not_nan z H).
  change (is_nan 0.1) with false. change (get_sign 0.1) with false.
  cbn [orb].
  destruct (0.1 <? z - 0.1)%float eqn:L; [now apply ltb_leb|].
  now destruct (z - 0.1 <? 0.1)%float.
Qed.

Lemma add_tenth_not_nan (z : float) :
  is_nan z = false -> is_nan (z + 0.1)%float = false.
Proof.
  intros H. apply is_nan_false. apply is_nan_false in H.
  rewrite FloatAxioms.add_spec. change (Prim2SF 0.1) with tenth.
  unfold SF64add, SFadd, tenth.
  destruct (Prim2SF z) as [s|s| |s m e]; try discriminate; try congruence.
  cbv zeta. apply binary_normalize_not_nan.
Qed.

Lemma mathMax_not_nan (a b : float) :
  is_nan a = false -> is_nan b = false -> is_nan (mathMax a b) = false.
Proof.
  intros Ha Hb. unfold mathMax. rewrite Ha, Hb. cbn [orb].
  destruct (a <? b)%float; [exact Hb|].
  destruct (b <? a)%float; [exact Ha|]. now destruct (get_sign a).
Qed.

(** Below one tenth is below one. *)
Lemma below_tenth_below_one (r : float) :
  (r <? 0.1)%float = true -> (r <? 1)%float = true.
Proof.
  rewrite !FloatAxioms.ltb_spec. unfold SFltb.
  change (Prim2SF 0.1) with tenth.
  change (Prim2SF 1) with (S754_finite false 4503599627370496 (-52)).
  unfold tenth.
  destruct (Prim2SF r) as [s|s| |s m e]; cbn [SFcompare]; try congruence.
  destruct s; [congruence|].
  destruct (e ?= -56) eqn:C; try discriminate.
  - apply Z.compare_eq in C. subst e. reflexivity.
  - rewrite Z.compare_lt_iff in C.
    assert (C' : (e ?= -52) = Lt) by (apply Z.compare_lt_iff; lia).
    now rewrite C'.
Qed.

End Binary64Facts.

(* ================================================================= *)
(** ** The diagram view: zoom to fit *)

Module ScalingFacts.
Import CircuitVisualization Binary64Facts.
Local Open Scope float_scope.

Lemma fit_idempotent (s : State) :
  handleFitToContainer (handleFitToContainer s) = handleFitToContainer s.
Proof. reflexivity. Qed.

(** What the effect leaves when both widths are positive. *)
Lemma optimalZoomEffect_fires (s : State) :
  (0 <? width (imageDimensions s)) = true ->
  (0 <? width (containerDimensions s)) = true ->
  optimalZoomEffect s =
    let widthRatio :=
      width (containerDimensions s) / width (imageDimensions s) in
    let newZoom := if widthRatio <? 1 then widthRatio else 1 in
    mkState newZoom (imageDimensions s) (containerDimensions s) newZoom.
Proof.
  intros Hi Hc. unfold optimalZoomEffect. now rewrite Hi, Hc.
Qed.

(** The zoom the effect computes is [Math.min(1, ratio)] of the binary64
    quotient of the two widths. *)
Lemma fitted_zoom (s : State) :
  (0 <? width (imageDimensions s)) = true ->
  (0 <? width (containerDimensions s)) = true ->
  is_finite (width (containerDimensions s)) = true ->
  optimalZoomEffect s =
    let fit :=
      mathMin 1 (width (containerDimensions s) / width (imageDimensions s)) in
    mkState fit (imageDimensions s) (containerDimensions s) fit.
Proof.
  intros Hi Hc Hf. rewrite (optimalZoomEffect_fires s Hi Hc). cbv zeta.
  now rewrite (newZoom_min _ (div_not_nan _ _ Hi Hc Hf)).
Qed.

(** C10: with a positive intrinsic width and a positive (finite) container
    width, the computed zoom is min(1, containerWidth / intrinsicWidth), the
    quotient being the binary64 one: it is at most 100%, it is the quotient
    itself when that is below 1 and exactly 1 when the quotient is 1 or
    more.  Fit-to-container puts this value back after any manual zoom, and a
    second fit changes nothing. *)
Theorem zoom_policy (s : State) :
  (0 <? width (imageDimensions s)) = true ->
  (0 <? width (containerDimensions s)) = true ->
  is_finite (width (containerDimensions s)) = true ->
  let ratio := width (containerDimensions s) / width (imageDimensions s) in
  let fit := mathMin 1 ratio in
  let s' := optimalZoomEffect s in
  optimalZoom s' = fit /\
  zoomLevel s' = fit /\
  (fit <=? 1) = true /\
  ((ratio <? 1) = true -> fit = ratio) /\
  ((1 <=? ratio) = true -> fit = 1) /\
  zoomLevel (handleFitToContainer (zoomIn s')) = fit /\
  zoomLevel (handleFitToContainer (zoomOut s')) = fit /\
  handleFitToContainer (handleFitToContainer s') = handleFitToContainer s' /\
  zoomLevel (handleFitToContainer (handleFitToContainer s')) =
    zoomLevel (handleFitToContainer s').
Proof.
  intros Hi Hc Hf ratio fit s'.
  assert (Hn : is_nan ratio = false) by (exact (div_not_nan _ _ Hi Hc Hf)).
  assert (Hfit : fit = if ratio <? 1 then ratio else 1)
    by (symmetry; exact (newZoom_min ratio Hn)).
  assert (Hs : s' = mkState fit (imageDimensions s) (containerDimensions s) fit)
    by (exact (fitted_zoom s Hi Hc Hf)).
  rewrite Hs. cbn [optimalZoom zoomLevel handleFitToContainer zoomIn zoomOut].
  repeat split.
  - rewrite Hfit. destruct (ratio <? 1) eqn:L; [now apply ltb_leb|reflexivity].
  - intros L. now rewrite Hfit, L.
  - intros G. now rewrite Hfit, (leb_not_ltb _ _ G).
Qed.

Lemma zoom_policy_witness :
  let s := mkState 1 (mkDimensions 2400 600) (mkDimensions 800 600) 1 in
  optimalZoom (optimalZoomEffect s) = mathMin 1 (800 / 2400) /\
  zoomLevel (optimalZoomEffect s) = 0.3333333333333333.
Proof.
  pose proof (zoom_policy
                (mkState 1 (mkDimensions 2400 600) (mkDimensions 800 600) 1)
                eq_refl eq_refl eq_refl) as (H1 & H2 & _).
  split; [exact H1 | exact H2].
Defined.

End ScalingFacts.

(* ================================================================= *)
(** ** The measurement table: strings, loops, shares *)

Module SynthLemmas.
Import JS SimulationResults Props.

(** *** Strings and arrays of characters *)

Lemma length_join (l : list ascii) : String.length (join l) = List.length l.
Proof. induction l as [|c l IH]; simpl; congruence. Qed.

Lemma get_join (l : list ascii) :
  forall j, String.get j (join l) = nth_error l j.
Proof.
  induction l as [|c l IH]; intros [|j]; simpl; auto.
Qed.

Lemma join_inj (a b : list ascii) : join a = join b -> a = b.
Proof.
  intros H. unfold join in H.
  rewrite <- (list_ascii_of_string_of_list_ascii a),
          <- (list_ascii_of_string_of_list_ascii b).
  now rewrite H.
Qed.

Lemma split_join (l : list ascii) : split (join l) = l.
Proof. apply list_ascii_of_string_of_list_ascii. Qed.

Lemma length_replicate (n : nat) (c : ascii) : List.length (replicate n c) = n.
Proof. induction n; simpl; congruence. Qed.

Lemma nth_error_replicate (n : nat) (c : ascii) :
  forall j, (j < n)%nat -> nth_error (replicate n c) j = Some c.
Proof.
  induction n as [|n IH]; intros j Hj; [lia|].
  destruct j; simpl; [reflexivity | apply IH; lia].
Qed.

Lemma Forall_replicate (P : ascii -> Prop) (n : nat) (c : ascii) :
  P c -> Forall P (replicate n c).
Proof. intros H. induction n; simpl; constructor; auto. Qed.

Lemma length_assign (a : list ascii) (c : ascii) :
  forall i, (i < List.length a)%nat -> List.length (assign a i c) = List.length a.
Proof.
  induction a as [|x a IH]; intros i Hi; simpl in *; [lia|].
  destruct i; simpl; [reflexivity|]. rewrite IH; [reflexivity | lia].
Qed.

Lemma nth_error_assign (a : list ascii) (c : ascii) :
  forall i j, (i < List.length a)%nat ->
    nth_error (assign a i c) j = if Nat.eqb j i then Some c else nth_error a j.
Proof.
  induction a as [|x a IH]; intros i j Hi; simpl in *; [lia|].
  destruct i, j; simpl; try reflexivity.
  apply IH. lia.
Qed.

(** *** Objects *)

Lemma set_fresh {V : Type} (o : object V) (k : string) (v : V) :
  ~ In k (keys o) -> set o k v = o ++ [(k, v)].
Proof.
  induction o as [|[k' v'] o IH]; intros Hk; simpl in *; [reflexivity|].
  destruct (String.eqb_spec k' k) as [->|Hne].
  - elim Hk. now left.
  - rewrite IH; [reflexivity|]. intros Hin. apply Hk. now right.
Qed.

Lemma keys_app {V : Type} (a b : object V) : keys (a ++ b) = keys a ++ keys b.
Proof. apply map_app. Qed.

Lemma values_app {V : Type} (a b : object V) :
  values (a ++ b) = values a ++ values b.
Proof. apply map_app. Qed.

Lemma sumOfCounts_snoc (o : object number) (e : string * number) :
  sumOfCounts (o ++ [e]) = add (sumOfCounts o) (snd e).
Proof.
  unfold sumOfCounts. rewrite values_app, fold_left_app. reflexivity.
Qed.

(** *** Loops *)

Lemma range_succ (k : nat) :
  range (Z.of_nat (S k)) = range (Z.of_nat k) ++ [Z.of_nat k].
Proof.
  unfold range. rewrite !Nat2Z.id, seq_S, map_app. reflexivity.
Qed.

Lemma range_of_nat (n : Z) : range n = range (Z.of_nat (Z.to_nat n)).
Proof. unfold range. now rewrite Nat2Z.id. Qed.

Lemma in_range (b x : Z) : In x (range b) <-> 0 <= x < b.
Proof.
  unfold range. rewrite in_map_iff. split.
  - intros (i & <- & Hi). apply in_seq in Hi. lia.
  - intros Hx. exists (Z.to_nat x). split; [lia|]. apply in_seq. lia.
Qed.

Lemma forallb_range (f : Z -> bool) (b : Z) :
  forallb f (range b) = true -> forall x, 0 <= x < b -> f x = true.
Proof.
  intros H x Hx. rewrite forallb_forall in H. apply H, in_range, Hx.
Qed.

Lemma length_range (k : nat) : List.length (range (Z.of_nat k)) = k.
Proof. unfold range. now rewrite length_map, length_seq, Nat2Z.id. Qed.

Lemma nth_error_range (k i : nat) :
  (i < k)%nat -> nth_error (range (Z.of_nat k)) i = Some (Z.of_nat i).
Proof.
  intros Hi. unfold range. rewrite Nat2Z.id.
  rewrite nth_error_map, nth_error_seq.
  destruct (Nat.ltb_spec i k); [reflexivity | lia].
Qed.

Lemma foldM_app {A S : Type} (body : S -> A -> result S) (l1 l2 : list A) :
  forall s, foldM body (l1 ++ l2) s = (s' <- foldM body l1 s ;; foldM body l2 s').
Proof.
  induction l1 as [|a l1 IH]; intros s; simpl; [reflexivity|].
  destruct (body s a); simpl; [apply IH | reflexivity].
Qed.

End SynthLemmas.

Module WState.
Import JS SimulationResults Props SynthLemmas.

#[local] Arguments totalShots : simpl never.
#[local] Arguments baseCount : simpl never.

Lemma wState_ok (n i : Z) : 0 <= n -> wState n i = Ok (wKey n i).
Proof.
  intros Hn. unfold wState, repeat, wKey.
  destruct (Z.ltb_spec n 0); [lia|]. simpl.
  unfold join at 1. now rewrite split_join.
Qed.

Lemma wKey_chars (n i : Z) (j : nat) :
  0 <= i < n -> Z.of_nat j < n ->
  String.get j (wKey n i) =
    Some (if Z.of_nat j =? i then "1"%char else "0"%char).
Proof.
  intros Hi Hj. unfold wKey.
  rewrite get_join, nth_error_assign by (rewrite length_replicate; lia).
  destruct (Nat.eqb_spec j (Z.to_nat i)) as [->|Hne].
  - rewrite Z2Nat.id by lia. now rewrite Z.eqb_refl.
  - destruct (Z.eqb_spec (Z.of_nat j) i); [lia|].
    apply nth_error_replicate. lia.
Qed.

Lemma wKey_oneHot (n i : Z) : 0 <= i < n -> oneHot n i (wKey n i).
Proof.
  intros Hi. split.
  - unfold wKey.
    rewrite length_join, length_assign, length_replicate
      by (rewrite length_replicate; lia).
    lia.
  - intros j Hj. now apply wKey_chars.
Qed.

Lemma wKey_inj (n i j : Z) :
  0 <= i < n -> 0 <= j < n -> wKey n i = wKey n j -> i = j.
Proof.
  intros Hi Hj H.
  pose proof (wKey_chars n i (Z.to_nat i) Hi ltac:(lia)) as Ei.
  pose proof (wKey_chars n j (Z.to_nat i) Hj ltac:(lia)) as Ej.
  rewrite H in Ei. rewrite Ei in Ej.
  rewrite Z2Nat.id in Ej by lia. rewrite Z.eqb_refl in Ej.
  destruct (Z.eqb_spec i j); [assumption | discriminate].
Qed.

Lemma wKey_fresh (n : Z) (k : nat) :
  Z.of_nat k < n ->
  ~ In (wKey n (Z.of_nat k)) (keys (map (wEntry n) (range (Z.of_nat k)))).
Proof.
  intros Hk Hin. unfold keys in Hin. rewrite map_map in Hin.
  apply in_map_iff in Hin as (i & Hkey & Hi). apply in_range in Hi.
  cbn [fst wEntry] in Hkey. apply wKey_inj in Hkey; lia.
Qed.

(** The state of the loop after its first [k] rounds, none of them the
    last. *)
Lemma wLoop_prefix (n : Z) (k : nat) :
  Z.of_nat k <= n - 1 ->
  foldM (wBody n) (range (Z.of_nat k)) ([], totalShots) =
    Ok (map (wEntry n) (range (Z.of_nat k)),
        totalShots - Z.of_nat k * baseCount n).
Proof.
  induction k as [|k IH]; intros Hk.
  - reflexivity.
  - rewrite range_succ, foldM_app, IH by lia.
    cbn [bind foldM wBody]. rewrite wState_ok by lia. cbn [bind].
    destruct (Z.ltb_spec (Z.of_nat k) (n - 1)); [|lia].
    cbn [bind foldM]. rewrite set_fresh by (apply wKey_fresh; lia).
    rewrite map_app. cbn [map].
    replace (wEntry n (Z.of_nat k))
      with (wKey n (Z.of_nat k), Int (baseCount n)).
    + do 2 f_equal. lia.
    + unfold wEntry, wShare, baseCount.
      destruct (Z.ltb_spec (Z.of_nat k) (n - 1)); [reflexivity | lia].
Qed.

(** The W-state table in closed form. *)
Lemma wCounts_closed (n : Z) :
  1 <= n -> wCounts n = Ok (map (wEntry n) (range n)).
Proof.
  intros Hn. unfold wCounts.
  rewrite (range_of_nat n).
  destruct (Z.to_nat n) as [|k] eqn:E; [lia|].
  rewrite range_succ, foldM_app, wLoop_prefix by lia.
  cbn [bind foldM wBody]. rewrite wState_ok by lia. cbn [bind].
  destruct (Z.ltb_spec (Z.of_nat k) (n - 1)); [lia|]. cbn [bind foldM fst].
  rewrite set_fresh by (apply wKey_fresh; lia).
  rewrite map_app. cbn [map].
  replace (wEntry n (Z.of_nat k))
    with (wKey n (Z.of_nat k),
          Int (totalShots - Z.of_nat k * baseCount n)); [reflexivity|].
  unfold wEntry, wShare, baseCount.
  destruct (Z.ltb_spec (Z.of_nat k) (n - 1)); [lia|].
  do 3 f_equal. lia.
Qed.

Lemma wKeys_NoDup (n : Z) : 1 <= n -> NoDup (keys (map (wEntry n) (range n))).
Proof.
  intros Hn. unfold keys. rewrite map_map. simpl.
  rewrite (range_of_nat n).
  assert (Hle : Z.of_nat (Z.to_nat n) <= n) by lia.
  induction (Z.to_nat n) as [|k IH]; [constructor|].
  rewrite range_succ, map_app. simpl.
  apply NoDup_app; [apply IH; lia | repeat constructor; auto |].
  intros x Hx [<-|[]].
  apply in_map_iff in Hx as (i & Hkey & Hi). apply in_range in Hi.
  apply wKey_inj in Hkey; lia.
Qed.

Lemma wSum_prefix (n : Z) (k : nat) :
  Z.of_nat k <= n - 1 ->
  sumOfCounts (map (wEntry n) (range (Z.of_nat k))) =
    Int (Z.of_nat k * (totalShots / n)).
Proof.
  induction k as [|k IH]; intros Hk; [reflexivity|].
  rewrite range_succ, map_app. cbn [map].
  rewrite sumOfCounts_snoc, IH by lia. unfold wEntry, wShare.
  destruct (Z.ltb_spec (Z.of_nat k) (n - 1)); [|lia].
  cbn [snd add]. f_equal. lia.
Qed.

Lemma wSum (n : Z) :
  1 <= n -> sumOfCounts (map (wEntry n) (range n)) = Int totalShots.
Proof.
  intros Hn. rewrite (range_of_nat n).
  destruct (Z.to_nat n) as [|k] eqn:E; [lia|].
  rewrite range_succ, map_app. cbn [map].
  rewrite sumOfCounts_snoc, wSum_prefix by lia. unfold wEntry, wShare.
  destruct (Z.ltb_spec (Z.of_nat k) (n - 1)); [lia|].
  cbn [snd add]. f_equal. nia.
Qed.

Lemma wShare_nonneg (n i : Z) : 1 <= n -> 0 <= wShare n i.
Proof.
  intros Hn. unfold wShare, totalShots.
  assert (H0 : 0 <= 1024 / n) by (apply Z.div_pos; lia).
  assert (H1 : n * (1024 / n) <= 1024) by (apply Z.mul_div_le; lia).
  destruct (i <? n - 1); nia.
Qed.

(** The integer quotient is what binary64 gives for the divisors that leave
    a non-zero share. *)
Lemma baseCount_binary64 (n : Z) :
  1 <= n <= 1024 -> baseCountFloat n = Int (baseCount n).
Proof.
  intros Hn.
  assert (H : forallb (fun i =>
                match baseCountFloat (i + 1) with
                | Int q => q =? baseCount (i + 1)
                | NaN => false
                end) (range 1024) = true) by (vm_compute; reflexivity).
  rewrite forallb_forall in H.
  specialize (H (n - 1)). rewrite in_range in H.
  replace (n - 1 + 1) with n in H by lia.
  specialize (H ltac:(lia)).
  destruct (baseCountFloat n); [|discriminate].
  apply Z.eqb_eq in H. now subst.
Qed.

End WState.

Module Fallback.
Import JS SimulationResults Props SynthLemmas.

#[local] Arguments totalShots : simpl never.

(** *** Keys: binary digits padded with zeros *)

Lemma pos_digits_app (p : positive) :
  forall acc, pos_digits p acc = pos_digits p [] ++ acc.
Proof.
  induction p as [p IH|p IH|]; intros acc; simpl.
  - rewrite (IH ("1"%char :: acc)), (IH ["1"%char]), <- app_assoc. reflexivity.
  - rewrite (IH ("0"%char :: acc)), (IH ["0"%char]), <- app_assoc. reflexivity.
  - reflexivity.
Qed.

Lemma length_pos_digits (p : positive) :
  forall acc,
    List.length (pos_digits p acc) = (Pos.size_nat p + List.length acc)%nat.
Proof.
  induction p as [p IH|p IH|]; intros acc; simpl;
    try rewrite IH; simpl; lia.
Qed.

Lemma Forall_pos_digits (p : positive) :
  forall acc,
    Forall (fun c => isBit c = true) acc ->
    Forall (fun c => isBit c = true) (pos_digits p acc).
Proof.
  induction p as [p IH|p IH|]; intros acc Hacc; simpl.
  - apply IH. now constructor.
  - apply IH. now constructor.
  - now constructor.
Qed.

Lemma size_nat_bound (p : positive) :
  forall k : nat, Z.pos p < 2 ^ Z.of_nat k -> (Pos.size_nat p <= k)%nat.
Proof.
  induction p as [p IH|p IH|]; intros [|k] Hp;
    try (rewrite Nat2Z.inj_succ, Z.pow_succ_r in Hp by lia);
    cbn [Pos.size_nat]; try (simpl in Hp; lia).
  - apply le_n_S, IH. lia.
  - apply le_n_S, IH. lia.
Qed.

Lemma binaryValue_snoc (l : list ascii) (c : ascii) :
  binaryValue (l ++ [c]) =
    2 * binaryValue l + (if Ascii.eqb c "1"%char then 1 else 0).
Proof. unfold binaryValue. now rewrite fold_left_app. Qed.

Lemma binaryValue_pos (p : positive) : binaryValue (pos_digits p []) = Z.pos p.
Proof.
  induction p as [p IH|p IH|]; simpl.
  - rewrite pos_digits_app, binaryValue_snoc, IH. simpl. lia.
  - rewrite pos_digits_app, binaryValue_snoc, IH. simpl. lia.
  - reflexivity.
Qed.

Lemma binaryValue_zeros (k : nat) (l : list ascii) :
  binaryValue (replicate k "0"%char ++ l) = binaryValue l.
Proof.
  unfold binaryValue. rewrite fold_left_app.
  replace (fold_left _ (replicate k "0"%char) 0) with 0; [reflexivity|].
  induction k as [|k IH]; simpl; [reflexivity | exact IH].
Qed.

Lemma binaryValue_padStart (n i : Z) :
  0 <= i -> binaryValue (padStart (toString2 i) n) = i.
Proof.
  intros Hi. unfold padStart. rewrite binaryValue_zeros.
  destruct i as [|p|p]; [reflexivity | apply binaryValue_pos | lia].
Qed.

Lemma stateKey_inj (n i j : Z) :
  0 <= i -> 0 <= j -> stateKey n i = stateKey n j -> i = j.
Proof.
  intros Hi Hj H. apply join_inj in H.
  rewrite <- (binaryValue_padStart n i Hi), <- (binaryValue_padStart n j Hj).
  now rewrite H.
Qed.

Lemma length_toString2 (i : Z) (k : nat) :
  (1 <= k)%nat -> 0 <= i < 2 ^ Z.of_nat k ->
  (List.length (toString2 i) <= k)%nat.
Proof.
  intros Hk Hi. destruct i as [|p|p]; simpl; [lia | | lia].
  rewrite length_pos_digits. simpl.
  pose proof (size_nat_bound p k ltac:(lia)). lia.
Qed.

Lemma stateKey_isBitstring (n i : Z) :
  1 <= n -> 0 <= i < 2 ^ n -> isBitstring n (stateKey n i) = true.
Proof.
  intros Hn Hi. unfold isBitstring, stateKey.
  pose proof (length_toString2 i (Z.to_nat n) ltac:(lia)) as Hlen.
  rewrite Z2Nat.id in Hlen by lia. specialize (Hlen Hi).
  apply andb_true_iff. split.
  - apply Z.eqb_eq. unfold padStart.
    rewrite length_join, length_app, length_replicate. lia.
  - fold (split (join (padStart (toString2 i) n))). rewrite split_join.
    apply forallb_forall. apply Forall_forall.
    unfold padStart. apply Forall_app. split.
    + now apply Forall_replicate.
    + destruct i as [|p|p]; simpl.
      * now repeat constructor.
      * apply Forall_pos_digits. constructor.
      * lia.
Qed.

(** *** Shares: evaluated in binary64 for every case that can occur *)

Lemma allSharesOk :
  forallb (fun r =>
    forallb (fun d =>
      forallb (fun k => shareOk (r + 1) d k) (range 3)) (range 10))
    (range 1024) = true.
Proof. vm_compute. reflexivity. Qed.

Lemma shareOk_all (r d k : Z) :
  1 <= r <= 1024 -> 0 <= d <= 9 -> 0 <= k <= 2 -> shareOk r d k = true.
Proof.
  intros Hr Hd Hk.
  pose proof (forallb_range _ 1024 allSharesOk (r - 1) ltac:(lia)) as H.
  cbv beta in H.
  pose proof (forallb_range _ 10 H d ltac:(lia)) as H1.
  cbv beta in H1.
  pose proof (forallb_range _ 3 H1 k ltac:(lia)) as H2.
  cbv beta in H2.
  now replace (r - 1 + 1) with r in H2 by lia.
Qed.

Lemma share_bounds (r d i : Z) :
  1 <= r <= 1024 -> 0 <= d <= 9 -> 0 <= i ->
  exists c,
    share (Int r) i (PrimFloat.div (float_of_Z d) 10%float) = Int c /\
    0 <= c < r.
Proof.
  intros Hr Hd Hi.
  assert (Hk : 0 <= Z.rem i 3 <= 2).
  { rewrite Z.rem_mod_nonneg by lia.
    pose proof (Z.mod_pos_bound i 3 ltac:(lia)). lia. }
  pose proof (shareOk_all r d (Z.rem i 3) Hr Hd Hk) as H.
  unfold shareOk in H.
  assert (E : share (Int r) (Z.rem i 3) (PrimFloat.div (float_of_Z d) 10%float)
              = share (Int r) i (PrimFloat.div (float_of_Z d) 10%float)).
  { unfold share. rewrite (Z.rem_mod_nonneg (Z.rem i 3)) by lia.
    rewrite Z.mod_small by lia. reflexivity. }
  rewrite E in H.
  destruct (share (Int r) i _) as [c|]; [|discriminate].
  exists c. split; [reflexivity|].
  apply andb_true_iff in H as [H1 H2].
  apply Z.leb_le in H1. apply Z.ltb_lt in H2. lia.
Qed.

Lemma factor_nonempty (c : N) (t : jsstr) :
  exists d, 0 <= d <= 9 /\
    factor (c :: t) = PrimFloat.div (float_of_Z d) 10%float.
Proof.
  exists (Z.rem (Z.of_N c) 10). split; [|reflexivity].
  rewrite Z.rem_mod_nonneg by lia.
  pose proof (Z.mod_pos_bound (Z.of_N c) 10 ltac:(lia)). lia.
Qed.

(** *** The loop *)

Lemma stateKey_fresh (n : Z) (k : nat) (cs : SimulationCounts) :
  keys cs = map (stateKey n) (range (Z.of_nat k)) ->
  ~ In (stateKey n (Z.of_nat k)) (keys cs).
Proof.
  intros Hk Hin. rewrite Hk in Hin.
  apply in_map_iff in Hin as (i & Hkey & Hi). apply in_range in Hi.
  apply stateKey_inj in Hkey; lia.
Qed.

Lemma NoDup_stateKeys (n : Z) (k : nat) :
  NoDup (map (stateKey n) (range (Z.of_nat k))).
Proof.
  induction k as [|k IH]; [constructor|].
  rewrite range_succ, map_app. cbn [map].
  apply NoDup_app; [exact IH | repeat constructor; auto |].
  intros x Hx [<-|[]].
  apply in_map_iff in Hx as (i & Hkey & Hi). apply in_range in Hi.
  apply stateKey_inj in Hkey; lia.
Qed.

(** Whatever the shares are, round [i] adds the key of [i]. *)
Lemma otherLoop_keys (t : jsstr) (n : Z) (k : nat) :
  keys (fst (fold_left (otherBody t n) (range (Z.of_nat k))
               ([], Int totalShots))) =
    map (stateKey n) (range (Z.of_nat k)).
Proof.
  induction k as [|k IH]; [reflexivity|].
  rewrite range_succ, fold_left_app. cbn [fold_left].
  destruct (fold_left _ (range (Z.of_nat k)) _) as [cs r].
  cbn [fst] in IH. unfold otherBody. cbn [fst].
  rewrite set_fresh by (now apply stateKey_fresh).
  rewrite keys_app, IH, map_app. reflexivity.
Qed.

(** With a first character to hash, every round takes a proper part of
    what remains, so the remainder stays positive and the books balance. *)
Lemma otherLoop_shares (c : N) (t : jsstr) (n : Z) (k : nat) :
  exists cs r,
    fold_left (otherBody (c :: t) n) (range (Z.of_nat k))
      ([], Int totalShots) = (cs, Int r) /\
    1 <= r <= 1024 /\
    sumOfCounts cs = Int (totalShots - r) /\
    Forall nonNegative (values cs).
Proof.
  induction k as [|k IH].
  - exists [], totalShots. repeat split; try constructor; unfold totalShots; lia.
  - destruct IH as (cs & r & Hfold & Hr & Hsum & Hpos).
    pose proof (otherLoop_keys (c :: t) n k) as Hkeys.
    rewrite range_succ, fold_left_app, Hfold. rewrite Hfold in Hkeys.
    cbn [fst] in Hkeys. cbn [fold_left]. unfold otherBody.
    destruct (factor_nonempty c t) as (d & Hd & ->).
    destruct (share_bounds r d (Z.of_nat k) Hr Hd ltac:(lia))
      as (c0 & -> & Hc0).
    cbn [min sub]. rewrite Z.min_l by lia.
    rewrite set_fresh by (now apply stateKey_fresh).
    exists (cs ++ [(stateKey n (Z.of_nat k), Int c0)]), (r - c0).
    split; [reflexivity|]. split; [lia|]. split.
    + rewrite sumOfCounts_snoc, Hsum. cbn [snd add]. f_equal. lia.
    + rewrite values_app. apply Forall_app. split; [exact Hpos|].
      repeat constructor. exists c0. split; [reflexivity | lia].
Qed.

Lemma maxStates_bounds (n : Z) :
  0 <= n -> 1 <= Z.min (2 ^ n) 16 <= 16 /\ Z.min (2 ^ n) 16 <= 2 ^ n.
Proof.
  intros Hn. pose proof (Z.pow_pos_nonneg 2 n ltac:(lia) Hn). lia.
Qed.

(** The keys of the fallback table, for any type string: the states below
    [maxStates], the last one missing when nothing is left for it. *)
Lemma otherCounts_keys (t : jsstr) (n : Z) :
  0 <= n ->
  exists k : nat,
    keys (otherCounts t n) = map (stateKey n) (range (Z.of_nat k)) /\
    Z.of_nat k <= Z.min (2 ^ n) 16.
Proof.
  intros Hn. destruct (maxStates_bounds n Hn) as [Hm _].
  unfold otherCounts. destruct (Z.ltb_spec n 0); [lia|].
  set (m := Z.min (2 ^ n) 16) in *.
  assert (E1 : m - 1 = Z.of_nat (Z.to_nat (m - 1))) by lia.
  assert (Hk : Z.of_nat (S (Z.to_nat (m - 1))) <= m) by lia.
  set (k := Z.to_nat (m - 1)) in *. clearbody k. rewrite E1.
  pose proof (otherLoop_keys t n k) as Hkeys.
  destruct (fold_left _ _ _) as [cs r]. cbn [fst] in Hkeys.
  destruct (gt0 r).
  - exists (S k). split; [|exact Hk].
    rewrite range_succ, map_app. cbn [map].
    rewrite set_fresh by (now apply stateKey_fresh).
    rewrite keys_app, Hkeys. reflexivity.
  - exists k. split; [exact Hkeys | lia].
Qed.

(** The fallback table of a non-empty type string. *)
Lemma otherCounts_nonempty (c : N) (t : jsstr) (n : Z) :
  0 <= n ->
  keys (otherCounts (c :: t) n) =
    map (stateKey n) (range (Z.min (2 ^ n) 16)) /\
  sumOfCounts (otherCounts (c :: t) n) = Int totalShots /\
  Forall nonNegative (values (otherCounts (c :: t) n)).
Proof.
  intros Hn. destruct (maxStates_bounds n Hn) as [Hm _].
  unfold otherCounts. destruct (Z.ltb_spec n 0); [lia|].
  set (m := Z.min (2 ^ n) 16) in *.
  assert (E1 : m - 1 = Z.of_nat (Z.to_nat (m - 1))) by lia.
  assert (E2 : m = Z.of_nat (S (Z.to_nat (m - 1)))) by lia.
  set (k := Z.to_nat (m - 1)) in *. clearbody k. rewrite E1, E2. clear E1 E2.
  pose proof (otherLoop_keys (c :: t) n k) as Hkeys.
  destruct (otherLoop_shares c t n k) as (cs & r & Hfold & Hr & Hsum & Hpos).
  rewrite Hfold in *. cbn [fst] in Hkeys. cbn [gt0].
  destruct (Z.ltb_spec 0 r); [|lia].
  rewrite set_fresh by (now apply stateKey_fresh).
  repeat split.
  - rewrite range_succ, map_app, keys_app, Hkeys. reflexivity.
  - rewrite sumOfCounts_snoc, Hsum. cbn [snd add]. f_equal. lia.
  - rewrite values_app. apply Forall_app. split; [exact Hpos|].
    repeat constructor. exists r. split; [reflexivity | lia].
Qed.

End Fallback.

(* ================================================================= *)
(** ** The measurement table: what the panel produces *)

Module SynthFacts.
Import JS SimulationResults Props Scenarios SynthLemmas.

#[local] Arguments totalShots : simpl never.

Lemma jsstr_eqb_eq (a b : jsstr) : jsstr_eqb a b = true <-> a = b.
Proof.
  unfold jsstr_eqb. destruct (list_eq_dec N.eq_dec a b); split; auto.
  discriminate.
Qed.

(** The branch [synthesize] takes. *)
Lemma synthesize_cases (t : jsstr) (n : Z) :
  (t = lit "bell_state" /\ synthesize t n = Ok bellCounts) \/
  (t = lit "ghz_state" /\ synthesize t n = ghzCounts n) \/
  (t = lit "w_state" /\ synthesize t n = wCounts n) \/
  (t <> lit "bell_state" /\ t <> lit "ghz_state" /\ t <> lit "w_state" /\
   synthesize t n = Ok (otherCounts t n)).
Proof.
  unfold synthesize.
  destruct (jsstr_eqb t (lit "bell_state")) eqn:Eb.
  { left. apply jsstr_eqb_eq in Eb. now split. }
  destruct (jsstr_eqb t (lit "ghz_state")) eqn:Eg.
  { right; left. apply jsstr_eqb_eq in Eg. now split. }
  destruct (jsstr_eqb t (lit "w_state")) eqn:Ew.
  { right; right; left. apply jsstr_eqb_eq in Ew. now split. }
  right; right; right.
  repeat split; try reflexivity; intros E; apply jsstr_eqb_eq in E; congruence.
Qed.

Lemma zeroShare_value : zeroShare = Int 491.
Proof. vm_compute. reflexivity. Qed.

Lemma bellCounts_value : bellCounts = [("00"%string, Int 491); ("11"%string, Int 533)].
Proof. vm_compute. reflexivity. Qed.

Lemma ghzCounts_value (n : Z) :
  1 <= n ->
  ghzCounts n =
    Ok [(join (replicate (Z.to_nat n) "0"%char), Int 491);
        (join (replicate (Z.to_nat n) "1"%char), Int 533)].
Proof.
  intros Hn. unfold ghzCounts, repeat.
  destruct (Z.ltb_spec n 0); [lia|]. cbn [bind set].
  rewrite zeroShare_value. fold (join (replicate (Z.to_nat n) "0"%char)).
  fold (join (replicate (Z.to_nat n) "1"%char)).
  destruct (String.eqb_spec (join (replicate (Z.to_nat n) "0"%char))
              (join (replicate (Z.to_nat n) "1"%char))) as [E|_].
  - apply join_inj in E.
    destruct (Z.to_nat n) eqn:En; [lia | discriminate E].
  - reflexivity.
Qed.

Lemma replicate_isBitstring (n : Z) (c : ascii) :
  0 <= n -> isBit c = true ->
  isBitstring n (join (replicate (Z.to_nat n) c)) = true.
Proof.
  intros Hn Hc. unfold isBitstring. apply andb_true_iff. split.
  - apply Z.eqb_eq. rewrite length_join, length_replicate. lia.
  - fold (split (join (replicate (Z.to_nat n) c))). rewrite split_join.
    apply forallb_forall, Forall_forall. now apply Forall_replicate.
Qed.

Lemma Forall_assign (P : ascii -> Prop) (c : ascii) (a : list ascii) :
  forall i, P c -> Forall P a -> Forall P (assign a i c).
Proof.
  induction a as [|x a IH]; intros i Hc Ha; simpl.
  - now repeat constructor.
  - inversion Ha; subst. destruct i; constructor; auto.
Qed.

Lemma wKey_isBitstring (n i : Z) :
  0 <= i < n -> isBitstring n (wKey n i) = true.
Proof.
  intros Hi. destruct (WState.wKey_oneHot n i Hi) as [Hlen _].
  unfold isBitstring. apply andb_true_iff. split; [now apply Z.eqb_eq|].
  unfold wKey.
  fold (split (join (assign (replicate (Z.to_nat n) "0"%char)
                       (Z.to_nat i) "1"%char))).
  rewrite split_join. apply forallb_forall, Forall_forall.
  apply Forall_assign; [reflexivity | now apply Forall_replicate].
Qed.

Lemma length_keys {V : Type} (o : object V) :
  List.length (keys o) = List.length o.
Proof. apply length_map. Qed.

(** No exception leaves [synthesize] for a qubit count that is not
    negative, nor outside the GHZ branch. *)
Lemma synthesize_ok (t : jsstr) (n : Z) :
  0 <= n \/ t <> lit "ghz_state" -> exists cs, synthesize t n = Ok cs.
Proof.
  intros H.
  destruct (synthesize_cases t n)
    as [[_ ->]|[[Et ->]|[[_ ->]|(_ & _ & _ & ->)]]]; eauto.
  - destruct H as [Hn|Hne]; [|contradiction].
    unfold ghzCounts, repeat. destruct (Z.ltb_spec n 0); [lia|].
    cbn [bind]. eauto.
  - destruct (Z_le_gt_dec 1 n) as [Hn|Hn].
    + rewrite WState.wCounts_closed by lia. eauto.
    + unfold wCounts, range. replace (Z.to_nat n) with 0%nat by lia.
      cbn. eauto.
Qed.

Lemma zeros_ne_ones (n : Z) :
  1 <= n ->
  join (replicate (Z.to_nat n) "0"%char) <> join (replicate (Z.to_nat n) "1"%char).
Proof.
  intros Hn E. apply join_inj in E.
  destruct (Z.to_nat n) eqn:En; [lia | discriminate E].
Qed.

Lemma maxStates_ge_2 (n : Z) : 1 <= n -> 2 <= Z.min (2 ^ n) 16.
Proof.
  intros Hn.
  assert (2 ^ 1 <= 2 ^ n) by (apply Z.pow_le_mono_r; lia).
  change (2 ^ 1) with 2 in *. lia.
Qed.

Lemma wValues_nonNegative (n : Z) (l : list Z) :
  1 <= n -> Forall nonNegative (values (map (wEntry n) l)).
Proof.
  intros Hn. induction l as [|i l IH]; simpl; constructor; [|exact IH].
  exists (wShare n i). split; [reflexivity | now apply WState.wShare_nonneg].
Qed.

(** Conservation away from the empty type string: the counts of every
    branch are non-negative integers over distinct outcomes and add up to
    the 1024 shots. *)
Lemma conservation_nonempty (t : jsstr) (n : Z) :
  t <> [] -> 1 <= n ->
  exists cs,
    synthesize t n = Ok cs /\
    sumOfCounts cs = Int totalShots /\
    Forall nonNegative (values cs) /\
    NoDup (keys cs).
Proof.
  intros Ht Hn.
  destruct (synthesize_cases t n)
    as [[_ ->]|[[_ ->]|[[_ ->]|(_ & _ & _ & ->)]]].
  - exists bellCounts. rewrite bellCounts_value.
    repeat split; try reflexivity.
    + repeat constructor; eexists; (split; [reflexivity | lia]).
    + repeat constructor; simpl; intuition discriminate.
  - rewrite ghzCounts_value by exact Hn. eexists. split; [reflexivity|].
    repeat split; try reflexivity.
    + repeat constructor; eexists; (split; [reflexivity | lia]).
    + repeat constructor; simpl; [|tauto].
      intros [E|[]]. now apply (zeros_ne_ones n Hn).
  - rewrite WState.wCounts_closed by exact Hn. eexists. split; [reflexivity|].
    repeat split.
    + now apply WState.wSum.
    + now apply wValues_nonNegative.
    + now apply WState.wKeys_NoDup.
  - destruct t as [|c t]; [contradiction|].
    destruct (Fallback.otherCounts_nonempty c t n ltac:(lia))
      as (Hkeys & Hsum & Hpos).
    eexists. split; [reflexivity|]. repeat split; try assumption.
    rewrite Hkeys, range_of_nat. apply Fallback.NoDup_stateKeys.
Qed.

(** C4, at the input where the code breaks it: with an empty type string
    [charCodeAt(0)] is NaN, so every share is NaN, the leftover is never
    assigned, and the counts do not add up to the 1024 shots. *)
Theorem conservation_fails_on_empty_type :
  synthesize (lit EmptyString) 2 =
    Ok [("00"%string, NaN); ("01"%string, NaN); ("10"%string, NaN)] /\
  sumOfCounts [("00"%string, NaN); ("01"%string, NaN); ("10"%string, NaN)]
    = NaN /\
  sumOfCounts [("00"%string, NaN); ("01"%string, NaN); ("10"%string, NaN)]
    <> Int totalShots.
Proof.
  split; [vm_compute; reflexivity|]. split; [reflexivity | discriminate].
Qed.

(** C5: the Bell-state table for two qubits is 491 shots on 00 (the floor of
    1024 x 0.48 in binary64) and the remaining 533 on 11, and the
    probability of 00 is 491/1024 = 0.4794921875, within 0.0001 of 0.4795. *)
Theorem bell_state_example (e v x : string) :
  handleRunSimulation (mkCircuitResponse (lit "bell_state") (Some 2) None e v x) =
    Shown {| counts := [("00"%string, Int 491); ("11"%string, Int 533)];
             numQubits := 2;
             resultShots := 1024;
             probabilities := [("00"%string, 0.4794921875%float);
                               ("11"%string, 0.5205078125%float)] |} /\
  zeroShare = Int 491 /\
  PrimFloat.mul 0.4794921875%float 1024%float = 491%float /\
  PrimFloat.ltb
    (PrimFloat.abs (PrimFloat.sub 0.4794921875%float 0.4795%float))
    0.0001%float = true.
Proof.
  repeat split; vm_compute; reflexivity.
Qed.

(** C6 as stated fails: in the three-qubit W table it is 001 that receives
    342 shots and 100 that receives 341, not the other way round. *)
Lemma w_state_example_counterexample :
  synthesize (lit "w_state") 3 =
    Ok [("100"%string, Int 341); ("010"%string, Int 341);
        ("001"%string, Int 342)] /\
  get [("100"%string, Int 341); ("010"%string, Int 341);
       ("001"%string, Int 342)] "100" <> Some (Int 342) /\
  get [("100"%string, Int 341); ("010"%string, Int 341);
       ("001"%string, Int 342)] "001" <> Some (Int 341).
Proof.
  split; [vm_compute; reflexivity|]. split; vm_compute; discriminate.
Qed.

(** C6 (amended): for every qubit count n >= 1 the W-state table has exactly
    n distinct outcomes; the i-th one generated is the string of n bits
    with its single 1 at index i counted from the left, it receives
    floor(1024 / n) shots when it is one of the first n - 1 and 1024 minus
    what those received when it is the last; the counts add up to 1024.
    For three qubits the table is 100: 341, 010: 341, 001: 342. *)
Theorem w_state_policy (n : Z) :
  (1 <= n ->
   exists cs,
     synthesize (lit "w_state") n = Ok cs /\
     Z.of_nat (List.length cs) = n /\
     NoDup (keys cs) /\
     (forall i : nat, Z.of_nat i < n ->
        exists key,
          nth_error cs i = Some (key, Int (wShare n (Z.of_nat i))) /\
          oneHot n (Z.of_nat i) key) /\
     sumOfCounts cs = Int totalShots) /\
  synthesize (lit "w_state") 3 =
    Ok [("100"%string, Int 341); ("010"%string, Int 341);
        ("001"%string, Int 342)].
Proof.
  split; [|vm_compute; reflexivity].
  intros Hn. exists (map (wEntry n) (range n)).
  split; [exact (WState.wCounts_closed n Hn)|].
  split; [rewrite range_of_nat, length_map, length_range; lia|].
  split; [now apply WState.wKeys_NoDup|].
  split; [|now apply WState.wSum].
  intros i Hi. exists (wKey n (Z.of_nat i)). split.
  - rewrite range_of_nat, nth_error_map, nth_error_range by lia. reflexivity.
  - apply WState.wKey_oneHot. lia.
Qed.

Lemma w_state_policy_witness :
  exists cs,
    synthesize (lit "w_state") 4 = Ok cs /\
    Z.of_nat (List.length cs) = 4 /\
    NoDup (keys cs) /\
    (forall i : nat, Z.of_nat i < 4 ->
       exists key,
         nth_error cs i = Some (key, Int (wShare 4 (Z.of_nat i))) /\
         oneHot 4 (Z.of_nat i) key) /\
    sumOfCounts cs = Int totalShots.
Proof.
  apply (proj1 (w_state_policy 4)). lia.
Defined.

(** C7 as stated fails: a GHZ response with num_qubits = -1 is neither
    rejected as invalid input nor defaulted to 3; the RangeError of
    [repeat] reaches the user as a failed simulation. *)
Lemma qubit_count_counterexample :
  resolveNumQubits negativeGhz = -1 /\
  handleRunSimulation negativeGhz =
    Failed "Failed to run simulation. Please try again.".
Proof. split; reflexivity. Qed.

(** C7 (amended): the caller settles the qubit count before any table is
    built: a num_qubits that is missing or 0 gives way to
    parameters.num_qubits, and to 3 when that is missing or 0 as well, so
    the count used is never 0; any other num_qubits is used as it is.  For a
    count of at least 1 the panel always shows a table for that count; the
    only failure there is comes from a negative count in the GHZ branch. *)
Theorem qubit_count_handling (cd : CircuitResponse) :
  resolveNumQubits cd <> 0 /\
  ((num_qubits cd = None \/ num_qubits cd = Some 0) ->
   forall m, m <> 0 -> parameters_num_qubits cd = Some m ->
   resolveNumQubits cd = m) /\
  ((num_qubits cd = None \/ num_qubits cd = Some 0) ->
   (parameters_num_qubits cd = None \/ parameters_num_qubits cd = Some 0) ->
   resolveNumQubits cd = 3) /\
  (forall n, n <> 0 -> num_qubits cd = Some n -> resolveNumQubits cd = n) /\
  (1 <= resolveNumQubits cd ->
   exists r, handleRunSimulation cd = Shown r /\
             numQubits r = resolveNumQubits cd) /\
  (forall message, handleRunSimulation cd = Failed message ->
     resolveNumQubits cd < 0 /\ circuit_type cd = lit "ghz_state").
Proof.
  repeat split.
  - unfold resolveNumQubits, orElse.
    destruct (num_qubits cd) as [[| |]|];
      destruct (parameters_num_qubits cd) as [[| |]|]; discriminate.
  - intros [H|H] m Hm H'; unfold resolveNumQubits; rewrite H, H';
      (destruct m; [contradiction | reflexivity | reflexivity]).
  - intros [H|H] [H'|H']; unfold resolveNumQubits; rewrite H, H'; reflexivity.
  - intros n Hn H. unfold resolveNumQubits. rewrite H.
    destruct n; [contradiction | reflexivity | reflexivity].
  - intros Hn. unfold handleRunSimulation.
    destruct (synthesize_ok (circuit_type cd) (resolveNumQubits cd)
                ltac:(left; lia)) as [cs ->].
    eexists. split; reflexivity.
  - unfold handleRunSimulation in H.
    destruct (Z_lt_ge_dec (resolveNumQubits cd) 0) as [Hlt|Hge];
      [exact Hlt|].
    destruct (synthesize_ok (circuit_type cd) (resolveNumQubits cd)
                ltac:(left; lia)) as [cs E].
    rewrite E in H. discriminate.
  - unfold handleRunSimulation in H.
    destruct (list_eq_dec N.eq_dec (circuit_type cd) (lit "ghz_state"))
      as [E|Hne]; [exact E|].
    destruct (synthesize_ok (circuit_type cd) (resolveNumQubits cd)
                ltac:(right; exact Hne)) as [cs E].
    rewrite E in H. discriminate.
Qed.

Lemma qubit_count_handling_witness :
  resolveNumQubits zeroQubitGhz = 3 /\
  resolveNumQubits
    (mkCircuitResponse (lit "ghz_state") (Some 0) (Some 5)
       "explanation" "diagram" "code") = 5 /\
  exists r,
    handleRunSimulation zeroQubitGhz = Shown r /\
    numQubits r = resolveNumQubits zeroQubitGhz.
Proof.
  pose proof (qubit_count_handling zeroQubitGhz)
    as (_ & _ & Hdefault & _ & Hshown & _).
  pose proof (qubit_count_handling
                (mkCircuitResponse (lit "ghz_state") (Some 0) (Some 5)
                   "explanation" "diagram" "code"))
    as (_ & Hparameters & _).
  split; [|split].
  - apply Hdefault; [right; reflexivity | left; reflexivity].
  - apply Hparameters with (m := 5);
      [right; reflexivity | discriminate | reflexivity].
  - apply Hshown. vm_compute. discriminate.
Defined.

(** C9 as stated fails: the Bell branch keeps its two-character keys for a
    three-qubit response, and the W table of 17 qubits has 17 outcomes,
    more than min(2^17, 16) = 16. *)
Lemma outcome_shape_counterexample :
  synthesize (lit "bell_state") 3 =
    Ok [("00"%string, Int 491); ("11"%string, Int 533)] /\
  isBitstring 3 "00" = false /\
  (exists cs, synthesize (lit "w_state") 17 = Ok cs /\
              List.length cs = 17%nat /\ NoDup (keys cs)) /\
  Z.min (2 ^ 17) 16 < 17.
Proof.
  split; [vm_compute; reflexivity|]. split; [reflexivity|].
  split; [|reflexivity].
  exists (map (wEntry 17) (range 17)).
  split; [vm_compute; reflexivity|]. split; [reflexivity|].
  apply WState.wKeys_NoDup. lia.
Qed.

(** C9 (amended): for every qubit count n >= 1 the outcomes of a table are
    distinct; outside the Bell branch every outcome is a string of exactly
    n bits, while the Bell branch always yields the two-bit outcomes 00
    and 11; the W branch has exactly n outcomes, and every other branch at
    most min(2^n, 16). *)
Theorem outcome_shape (t : jsstr) (n : Z) :
  1 <= n ->
  exists cs,
    synthesize t n = Ok cs /\
    NoDup (keys cs) /\
    (t = lit "bell_state" -> keys cs = ["00"%string; "11"%string]) /\
    (t <> lit "bell_state" ->
     Forall (fun k => isBitstring n k = true) (keys cs)) /\
    (t = lit "w_state" -> Z.of_nat (List.length cs) = n) /\
    (t <> lit "w_state" -> Z.of_nat (List.length cs) <= Z.min (2 ^ n) 16).
Proof.
  intros Hn. pose proof (maxStates_ge_2 n Hn) as Hm.
  destruct (synthesize_cases t n)
    as [[Et ->]|[[Et ->]|[[Et ->]|(Hb & Hg & Hw & ->)]]].
  - exists bellCounts. rewrite bellCounts_value. subst t.
    repeat split; try reflexivity.
    + repeat constructor; simpl; intuition discriminate.
    + intros H. now elim H.
    + discriminate.
    + intros _. simpl. lia.
  - rewrite ghzCounts_value by exact Hn. eexists. split; [reflexivity|].
    subst t. repeat split.
    + repeat constructor; simpl; [|tauto].
      intros [E|[]]. now apply (zeros_ne_ones n Hn).
    + discriminate.
    + intros _. simpl.
      repeat constructor; apply replicate_isBitstring; (lia || reflexivity).
    + discriminate.
    + intros _. simpl. lia.
  - rewrite WState.wCounts_closed by exact Hn. eexists. split; [reflexivity|].
    subst t. repeat split.
    + now apply WState.wKeys_NoDup.
    + discriminate.
    + intros _. unfold keys. rewrite map_map. apply Forall_forall.
      intros k Hk. apply in_map_iff in Hk as (i & <- & Hi).
      apply in_range in Hi. now apply wKey_isBitstring.
    + intros _. rewrite range_of_nat, length_map, length_range. lia.
    + intros H. now elim H.
  - destruct (Fallback.otherCounts_keys t n ltac:(lia)) as (k & Hkeys & Hk).
    destruct (Fallback.maxStates_bounds n ltac:(lia)) as [_ Hpow].
    eexists. split; [reflexivity|]. repeat split.
    + rewrite Hkeys. apply Fallback.NoDup_stateKeys.
    + intros E. contradiction.
    + intros _. rewrite Hkeys. apply Forall_forall.
      intros key Hkey. apply in_map_iff in Hkey as (i & <- & Hi).
      apply in_range in Hi. apply Fallback.stateKey_isBitstring; lia.
    + intros E. contradiction.
    + intros _. rewrite <- length_keys, Hkeys, length_map, length_range.
      exact Hk.
Qed.

Lemma outcome_shape_witness :
  exists cs,
    synthesize (lit "grover") 5 = Ok cs /\
    NoDup (keys cs) /\
    (lit "grover" = lit "bell_state" -> keys cs = ["00"%string; "11"%string]) /\
    (lit "grover" <> lit "bell_state" ->
     Forall (fun k => isBitstring 5 k = true) (keys cs)) /\
    (lit "grover" = lit "w_state" -> Z.of_nat (List.length cs) = 5) /\
    (lit "grover" <> lit "w_state" ->
     Z.of_nat (List.length cs) <= Z.min (2 ^ 5) 16).
Proof.
  apply (outcome_shape (lit "grover") 5). lia.
Defined.

End SynthFacts.

(* ================================================================= *)
(** ** The orchestrator: further properties *)

Module LayoutMore.
Import Layout Scenarios MoreProps.

Lemma tableFresh_step (s : State) (e : Event) :
  tableFresh s -> tableFresh (step s e).
Proof.
  intros Hs. destruct e as [c|c d|c m| | |t|]; simpl.
  - intros r H. destruct c; discriminate H.
  - exact Hs.
  - intros r H. destruct c; exact (Hs r H).
  - destruct (timers s) as [|c rest]; [exact Hs|].
    intros r H. destruct c; discriminate H.
  - intros r H. discriminate H.
  - unfold clickTab. destruct (isGenerating s); [exact Hs|].
    intros r H. destruct (Tab_eqb (activeTab s) t); discriminate H.
  - unfold runSimulationEffect.
    destruct (resultViewsRendered s); [|exact Hs].
    destruct (circuitData s) as [data|] eqn:Ec; [|exact Hs].
    destruct (simulationResults s) as [r0|] eqn:Er; [exact Hs|].
    destruct (SimulationResults.handleRunSimulation data) as [r1|m] eqn:Eh;
      [|exact Hs].
    intros r H. simpl in H. injection H as <-.
    exists data. split; [exact Ec | exact Eh].
Qed.

Lemma tableFresh_run (trace : list Event) :
  forall s, tableFresh s -> tableFresh (run s trace).
Proof.
  induction trace as [|e trace IH]; intros s Hs; [exact Hs|].
  simpl. apply IH, tableFresh_step, Hs.
Qed.

(** The table on the page is never stale: in every reachable state, a
    measurement table that is present is the one [handleRunSimulation]
    computes from the artifact that is committed at that moment. *)
Theorem table_belongs_to_artifact (trace : list Event) :
  forall r,
    simulationResults (run initial trace) = Some r ->
    exists data,
      circuitData (run initial trace) = Some data /\
      SimulationResults.handleRunSimulation data = SimulationResults.Shown r.
Proof.
  apply (tableFresh_run trace initial). intros r H. discriminate H.
Qed.

Lemma table_belongs_to_artifact_witness :
  exists data,
    circuitData
      (run initial [StartGeneration text; Generated text bellArtifact;
                    TimerFires; SimulationEffect]) = Some data /\
    SimulationResults.handleRunSimulation data =
      SimulationResults.Shown
        (SimulationResults.mkResults
           [("00"%string, JS.Int 491); ("11"%string, JS.Int 533)] 2 1024
           [("00"%string, 0.4794921875%float);
            ("11"%string, 0.5205078125%float)]).
Proof.
  apply (table_belongs_to_artifact
           [StartGeneration text; Generated text bellArtifact;
            TimerFires; SimulationEffect]).
  vm_compute. reflexivity.
Defined.

Lemma empty_step (s : State) (e : Event) :
  stagesNothing [e] = true -> empty s -> empty (step s e).
Proof.
  intros He (Hc & Hp & Hr). destruct e as [c|c d|c m| | |t|]; simpl in *.
  - destruct c; repeat split; assumption.
  - discriminate.
  - destruct c; repeat split; assumption.
  - destruct (timers s) as [|c rest]; [now repeat split|].
    destruct c; repeat split; simpl; assumption.
  - repeat split.
  - unfold clickTab. destruct (isGenerating s); [now repeat split|].
    destruct (Tab_eqb (activeTab s) t); repeat split.
  - unfold runSimulationEffect, resultViewsRendered. rewrite Hc.
    now repeat split.
Qed.

Lemma empty_run (trace : list Event) :
  forall s, stagesNothing trace = true -> empty s -> empty (run s trace).
Proof.
  induction trace as [|e trace IH]; intros s Ht Hs; [exact Hs|].
  simpl in Ht. apply andb_true_iff in Ht as [He Ht].
  simpl. apply IH; [exact Ht|].
  apply empty_step; [simpl; now rewrite He | exact Hs].
Qed.

(** Reset completeness: a reset leaves no artifact, no staged response, no
    table, no error, no flag and no channel Generating, and bumps the
    counter that remounts the adapters; the timers already waiting are not
    cancelled.  From then on, whatever happens short of a new response being
    staged (those timers running included), nothing is committed or
    tabulated and the result views stay away. *)
Theorem reset_completeness (s : State) :
  let s' := handleResetCircuit s in
  (circuitData s' = None /\ pendingDataRef s' = None /\
   simulationResults s' = None /\ error s' = None /\
   showResults s' = false /\ isGenerating s' = false /\
   resetCounter s' = S (resetCounter s) /\
   activeTab s' = activeTab s /\ timers s' = timers s) /\
  forall trace,
    stagesNothing trace = true ->
    circuitData (run s' trace) = None /\
    simulationResults (run s' trace) = None /\
    resultViewsRendered (run s' trace) = false.
Proof.
  split.
  - repeat split; simpl; try reflexivity. apply Nat.add_1_r.
  - intros trace Ht.
    destruct (empty_run trace (handleResetCircuit s) Ht) as (Hc & _ & Hr).
    { repeat split. }
    repeat split; try assumption.
    unfold resultViewsRendered. now rewrite Hc.
Qed.

Lemma reset_completeness_witness :
  let s' := handleResetCircuit
              (run initial [StartGeneration text; Generated text bellArtifact]) in
  timers s' = [text] /\
  circuitData (run s' [TimerFires; SimulationEffect]) = None /\
  simulationResults (run s' [TimerFires; SimulationEffect]) = None /\
  resultViewsRendered (run s' [TimerFires; SimulationEffect]) = false.
Proof.
  split; [reflexivity|].
  exact (proj2 (reset_completeness
                  (run initial [StartGeneration text;
                                Generated text bellArtifact]))
           [TimerFires; SimulationEffect] eq_refl).
Defined.

(** A tab button pressed while the results are on the page discards them,
    also when it is the button of the tab that is already active: the
    artifact and the table are gone, the views are no longer rendered, and
    the pressed tab is the active one. *)
Theorem tab_click_discards_results (t : Tab) (s : State) :
  resultViewsRendered s = true ->
  let s' := clickTab t s in
  activeTab s' = t /\
  circuitData s' = None /\
  simulationResults s' = None /\
  resultViewsRendered s' = false /\
  resetCounter s' = S (resetCounter s).
Proof.
  intros H. unfold resultViewsRendered in H.
  destruct (circuitData s) as [data|]; [|discriminate].
  apply andb_true_iff in H as [_ Hg]. apply negb_true_iff in Hg.
  unfold clickTab. rewrite Hg.
  destruct (Tab_eqb (activeTab s) t); simpl; repeat split;
    apply Nat.add_1_r.
Qed.

Lemma tab_click_discards_results_witness :
  let s := run initial [StartGeneration text; Generated text bellArtifact;
                        TimerFires] in
  activeTab s = text /\
  circuitData (clickTab text s) = None /\
  resultViewsRendered (clickTab text s) = false.
Proof.
  split; [reflexivity|].
  pose proof (tab_click_discards_results text
                (run initial [StartGeneration text;
                              Generated text bellArtifact; TimerFires])
                eq_refl) as (_ & Hc & _ & Hv & _).
  split; [exact Hc | exact Hv].
Defined.

Lemma isGenerating_only (c : Tab) (s : State) :
  (forall c', c' <> c -> generating c' s = false) ->
  isGenerating (setGenerating c false s) = false.
Proof.
  intros H. apply LayoutFacts.isGenerating_false. intros c'.
  destruct c, c'; simpl; try reflexivity;
    first [ exact (H text ltac:(discriminate))
          | exact (H template ltac:(discriminate))
          | exact (H image ltac:(discriminate))
          | exact (H file ltac:(discriminate)) ].
Qed.

Lemma effect_stores_table (s : State) (data : CircuitResponse)
  (r : SimulationResults.Results) :
  resultViewsRendered s = true ->
  circuitData s = Some data ->
  simulationResults s = None ->
  SimulationResults.handleRunSimulation data = SimulationResults.Shown r ->
  simulationResults (runSimulationEffect s) = Some r /\
  resultViewsRendered (runSimulationEffect s) = true.
Proof.
  intros Hv Hd Hn Hr. unfold runSimulationEffect. rewrite Hv, Hd, Hn, Hr.
  split; [reflexivity|].
  unfold resultViewsRendered in *. rewrite Hd in Hv. simpl. now rewrite Hd.
Qed.

(** A generation that succeeds, from a page with no timer waiting and no
    other channel Generating: from the start until the settle timer runs the
    views are hidden and every tab button is dead; when the timer runs the
    response is the committed artifact, the error is cleared and the views
    are rendered; the panel's effect then stores the table of that very
    response. *)
Theorem successful_generation (c : Tab) (data : CircuitResponse) (s : State) :
  timers s = [] ->
  (forall c', c' <> c -> generating c' s = false) ->
  let staged := run s [StartGeneration c; Generated c data] in
  let settled := step staged TimerFires in
  (resultViewsRendered (step s (StartGeneration c)) = false /\
   resultViewsRendered staged = false /\
   forall t, clickTab t staged = staged) /\
  (circuitData settled = Some data /\ error settled = None /\
   isGenerating settled = false /\ resultViewsRendered settled = true /\
   simulationResults settled = None) /\
  forall r,
    SimulationResults.handleRunSimulation data = SimulationResults.Shown r ->
    simulationResults (step settled SimulationEffect) = Some r /\
    resultViewsRendered (step settled SimulationEffect) = true.
Proof.
  intros Ht Hothers staged settled.
  assert (Hgen : isGenerating staged = true).
  { unfold staged, isGenerating. destruct c; simpl;
      repeat rewrite orb_true_r; reflexivity. }
  assert (Esettled :
            settled = commitPending c
                        (setTimers []
                           (handleGenerated c data (handleStartGeneration c s)))).
  { unfold settled, staged. cbn [run fold_left step].
    replace (timers (handleGenerated c data (handleStartGeneration c s)))
      with [c]; [reflexivity|].
    destruct c; simpl; now rewrite Ht. }
  assert (Hidle : isGenerating settled = false).
  { rewrite Esettled.
    pose proof (isGenerating_only c s Hothers) as H.
    unfold isGenerating in *. destruct c; simpl in *; exact H. }
  assert (Hdata : circuitData settled = Some data).
  { rewrite Esettled. now destruct c. }
  assert (Hshow : showResults settled = true).
  { rewrite Esettled. now destruct c. }
  assert (Hview : resultViewsRendered settled = true).
  { unfold resultViewsRendered. now rewrite Hdata, Hshow, Hidle. }
  assert (Hnone : simulationResults settled = None).
  { rewrite Esettled. now destruct c. }
  repeat split.
  - unfold resultViewsRendered.
    destruct c; simpl; destruct (circuitData s); reflexivity.
  - unfold resultViewsRendered. rewrite Hgen.
    destruct (circuitData staged); [apply andb_false_r | reflexivity].
  - intros t. unfold clickTab. now rewrite Hgen.
  - exact Hdata.
  - rewrite Esettled. now destruct c.
  - exact Hidle.
  - exact Hview.
  - exact Hnone.
  - exact (proj1 (effect_stores_table settled data r Hview Hdata Hnone H)).
  - exact (proj2 (effect_stores_table settled data r Hview Hdata Hnone H)).
Qed.

Lemma successful_generation_witness :
  circuitData
    (run initial [StartGeneration image; Generated image ghzArtifact;
                  TimerFires]) = Some ghzArtifact /\
  resultViewsRendered
    (run initial [StartGeneration image; Generated image ghzArtifact;
                  TimerFires]) = true.
Proof.
  pose proof (successful_generation image ghzArtifact initial eq_refl)
    as (_ & (Hd & _ & _ & Hv & _) & _).
  { intros c' _. now destruct c'. }
  split; [exact Hd | exact Hv].
Defined.

End LayoutMore.

(* ================================================================= *)
(** ** The channels: validation and relay *)

Module AdapterFacts.

(** Text channel: a description made of white space only never reaches the
    orchestrator, whose state is untouched while the adapter shows its own
    message.  Otherwise a rejected request ends with the channel no longer
    Generating, the views hidden, the artifact kept, and the error's own
    message shown by both the adapter and the orchestrator (a fixed message
    when the thrown value is not an Error); a resolved request ends with the
    response staged and the channel still Generating. *)
Theorem text_submission (response : NaturalLanguageInput.Response)
  (a : NaturalLanguageInput.State) (l : Layout.State) :
  let a' := fst (NaturalLanguageInput.handleSubmit response a l) in
  let l' := snd (NaturalLanguageInput.handleSubmit response a l) in
  (NaturalLanguageInput.blank (NaturalLanguageInput.input a) = true ->
   l' = l /\
   NaturalLanguageInput.error a' =
     Some "Please enter a circuit description"%string) /\
  (NaturalLanguageInput.blank (NaturalLanguageInput.input a) = false ->
   (forall m, response = NaturalLanguageInput.Rejected (Some m) ->
      Layout.error l' = Some m /\ NaturalLanguageInput.error a' = Some m) /\
   (response = NaturalLanguageInput.Rejected None ->
      Layout.error l' = NaturalLanguageInput.error a' /\
      Layout.error l' =
        Some "Failed to generate circuit. Please try again."%string) /\
   (forall m, response = NaturalLanguageInput.Rejected m ->
      Layout.generating Layout.text l' = false /\
      Layout.resultViewsRendered l' = false /\
      Layout.circuitData l' = Layout.circuitData l /\
      Layout.timers l' = Layout.timers l) /\
   (forall data, response = NaturalLanguageInput.Resolved data ->
      Layout.pendingDataRef l' = Some data /\
      Layout.timers l' = Layout.timers l ++ [Layout.text] /\
      Layout.generating Layout.text l' = true /\
      Layout.resultViewsRendered l' = false /\
      NaturalLanguageInput.error a' = None)).
Proof.
  unfold NaturalLanguageInput.handleSubmit.
  destruct (NaturalLanguageInput.blank (NaturalLanguageInput.input a)).
  - split; [intros _; split; reflexivity | discriminate].
  - split; [discriminate|]. intros _. repeat split.
    + subst response. reflexivity.
    + subst response. reflexivity.
    + subst response. reflexivity.
    + subst response. reflexivity.
    + subst response. reflexivity.
    + subst response. unfold Layout.resultViewsRendered. simpl.
      destruct (Layout.circuitData l); reflexivity.
    + subst response. reflexivity.
    + subst response. reflexivity.
    + subst response. reflexivity.
    + subst response. reflexivity.
    + subst response. reflexivity.
    + subst response. unfold Layout.resultViewsRendered. simpl.
      destruct (Layout.circuitData l); reflexivity.
    + subst response. reflexivity.
Qed.

Lemma text_submission_witness :
  snd (NaturalLanguageInput.handleSubmit
         (NaturalLanguageInput.Rejected (Some "API error: 500"%string))
         (NaturalLanguageInput.mkState (JS.lit "   ") None)
         Layout.initial) = Layout.initial /\
  Layout.error
    (snd (NaturalLanguageInput.handleSubmit
            (NaturalLanguageInput.Rejected (Some "API error: 500"%string))
            (NaturalLanguageInput.mkState (JS.lit "a Bell pair") None)
            Layout.initial)) = Some "API error: 500"%string.
Proof.
  split.
  - apply (proj1 (text_submission
                    (NaturalLanguageInput.Rejected (Some "API error: 500"%string))
                    (NaturalLanguageInput.mkState (JS.lit "   ") None)
                    Layout.initial)).
    reflexivity.
  - pose proof (proj2 (text_submission
                    (NaturalLanguageInput.Rejected (Some "API error: 500"%string))
                    (NaturalLanguageInput.mkState (JS.lit "a Bell pair") None)
                    Layout.initial) eq_refl) as (Hm & _).
    exact (proj1 (Hm _ eq_refl)).
Defined.

Lemma includes_In (l : list string) (x : string) :
  CircuitImporter.includes l x = true <-> In x l.
Proof.
  unfold CircuitImporter.includes. rewrite existsb_exists. split.
  - intros (y & Hy & E). apply String.eqb_eq in E. now subst.
  - intros H. exists x. split; [exact H | apply String.eqb_refl].
Qed.

(** Image and file channel: a dropped file either becomes the selected file
    with the error cleared, or is refused, in which case the file selected
    before stays selected and a message is shown.  For images, dropping and
    browsing apply the same test.  For circuit files they do not: browsing
    takes any file, while a drop is taken exactly when its MIME type is one
    of the four listed, so a .qasm file that the browser gives no MIME type
    is refused when dropped. *)
Theorem importer_selection (t : CircuitImporter.ImporterType)
  (f : CircuitImporter.File) (rest : list CircuitImporter.File)
  (s : CircuitImporter.State) :
  let dropped := CircuitImporter.handleDrop t (f :: rest) s in
  ((CircuitImporter.file dropped = Some f /\
    CircuitImporter.error dropped = None) \/
   (CircuitImporter.file dropped = CircuitImporter.file s /\
    exists m, CircuitImporter.error dropped = Some m)) /\
  CircuitImporter.handleDrop CircuitImporter.imageImporter (f :: rest) s =
    CircuitImporter.handleFileChange CircuitImporter.imageImporter (Some f) s /\
  CircuitImporter.handleFileChange CircuitImporter.fileImporter (Some f) s =
    CircuitImporter.mkState (Some f) None /\
  (CircuitImporter.error
     (CircuitImporter.handleDrop CircuitImporter.fileImporter (f :: rest) s)
     = None <->
   In (CircuitImporter.type f) CircuitImporter.droppableTypes) /\
  CircuitImporter.error
    (CircuitImporter.handleDrop CircuitImporter.fileImporter
       [CircuitImporter.mkFile "bell.qasm" EmptyString] s) <> None.
Proof.
  split; [|split; [|split; [|split]]].
  - unfold CircuitImporter.handleDrop.
    destruct (CircuitImporter.isImage t &&
              negb (CircuitImporter.startsWith (CircuitImporter.type f) "image/"));
      [right; split; [reflexivity | eexists; reflexivity]|].
    destruct (negb (CircuitImporter.isImage t) &&
              negb (CircuitImporter.includes CircuitImporter.droppableTypes
                      (CircuitImporter.type f)));
      [right; split; [reflexivity | eexists; reflexivity]|].
    left. split; reflexivity.
  - unfold CircuitImporter.handleDrop, CircuitImporter.handleFileChange.
    cbn [CircuitImporter.isImage andb negb].
    destruct (negb (CircuitImporter.startsWith (CircuitImporter.type f) "image/"));
      reflexivity.
  - reflexivity.
  - unfold CircuitImporter.handleDrop. cbn [CircuitImporter.isImage andb negb].
    destruct (CircuitImporter.includes CircuitImporter.droppableTypes
                (CircuitImporter.type f)) eqn:E; cbn [negb CircuitImporter.error].
    + split; [intros _; now apply includes_In | reflexivity].
    + split; [discriminate|].
      intros H. apply includes_In in H. congruence.
  - discriminate.
Qed.

End AdapterFacts.

(* ================================================================= *)
(** ** The diagram view: manual zoom and image sizes *)

Module DiagramFacts.
Import CircuitVisualization Diagram Binary64Facts.
Local Open Scope float_scope.

Lemma press_frame (s : State) (b : ZoomButton) :
  optimalZoom (press s b) = optimalZoom s /\
  imageDimensions (press s b) = imageDimensions s /\
  containerDimensions (press s b) = containerDimensions s.
Proof. destruct b; repeat split. Qed.

Lemma presses_frame (presses : list ZoomButton) :
  forall s,
    optimalZoom (fold_left press presses s) = optimalZoom s /\
    imageDimensions (fold_left press presses s) = imageDimensions s /\
    containerDimensions (fold_left press presses s) = containerDimensions s.
Proof.
  induction presses as [|b presses IH]; intros s; [repeat split|].
  simpl. destruct (IH (press s b)) as (H1 & H2 & H3).
  destruct (press_frame s b) as (E1 & E2 & E3).
  rewrite H1, H2, H3, E1, E2, E3. repeat split.
Qed.

(** Whatever zoom buttons were pressed, in whatever order, Fit puts the zoom
    back to the value computed last for the diagram and its container, and
    the buttons never change that value or the recorded sizes. *)
Theorem fit_after_manual_zoom (presses : list ZoomButton) (s : State) :
  zoomLevel (handleFitToContainer (fold_left press presses s)) = optimalZoom s /\
  optimalZoom (fold_left press presses s) = optimalZoom s /\
  imageDimensions (fold_left press presses s) = imageDimensions s /\
  containerDimensions (fold_left press presses s) = containerDimensions s.
Proof.
  destruct (presses_frame presses s) as (H1 & H2 & H3).
  repeat split; assumption.
Qed.

Lemma press_number (s : State) (b : ZoomButton) :
  is_nan (zoomLevel s) = false -> is_nan (zoomLevel (press s b)) = false.
Proof.
  intros H. destruct b; cbn [press zoomOut zoomIn zoomLevel].
  - apply mathMax_not_nan; [reflexivity | now apply sub_tenth_not_nan].
  - now apply add_tenth_not_nan.
Qed.

Lemma presses_number (presses : list ZoomButton) :
  forall s, is_nan (zoomLevel s) = false ->
            is_nan (zoomLevel (fold_left press presses s)) = false.
Proof.
  induction presses as [|b presses IH]; intros s Hs; [exact Hs|].
  cbn [fold_left]. apply IH. now apply press_number.
Qed.

Lemma presses_level (presses : list ZoomButton) (s s' : State) :
  zoomLevel s = zoomLevel s' ->
  zoomLevel (fold_left press presses s) =
  zoomLevel (fold_left press presses s').
Proof.
  revert s s'. induction presses as [|b presses IH]; intros s s' E;
    [exact E|].
  cbn [fold_left]. apply IH.
  destruct b; cbn [press zoomOut zoomIn zoomLevel]; now rewrite E.
Qed.

(** Zoom out stops at 10%, in binary64: whatever a zoom level that is a
    number went through, after a zoom out it is 0.1 or more; from 0.1 or
    less a zoom out lands on 0.1 exactly.  The steps of 0.1 are rounded:
    from 100%, nine zoom outs leave 0.10000000000000014, not 0.1, and it
    takes a tenth to reach the floor; three zoom ins leave
    1.3000000000000003.  The fitted zoom is not bound by the floor: when the
    quotient of the widths is below 0.1 the fit is that quotient, and a zoom
    out then enlarges the diagram to 0.1. *)
Theorem zoom_out_floor (s : State) :
  (is_nan (zoomLevel s) = false ->
   forall presses,
     (0.1 <=? zoomLevel (zoomOut (fold_left press presses s))) = true) /\
  ((zoomLevel s <=? 0.1) = true -> zoomLevel (zoomOut s) = 0.1) /\
  (zoomLevel s = 1 ->
   zoomLevel (fold_left press (List.repeat ZoomOut 9) s) =
     0.10000000000000014 /\
   zoomLevel (fold_left press (List.repeat ZoomOut 10) s) = 0.1 /\
   zoomLevel (fold_left press (List.repeat ZoomIn 3) s) =
     1.3000000000000003) /\
  ((0 <? width (imageDimensions s)) = true ->
   (0 <? width (containerDimensions s)) = true ->
   (width (containerDimensions s) / width (imageDimensions s) <? 0.1) = true ->
   zoomLevel (optimalZoomEffect s) =
     width (containerDimensions s) / width (imageDimensions s) /\
   zoomLevel (zoomOut (optimalZoomEffect s)) = 0.1).
Proof.
  split; [|split; [|split]].
  - intros Hs presses. cbn [zoomOut zoomLevel].
    apply floor_held. now apply presses_number.
  - intros Hz. cbn [zoomOut zoomLevel]. now apply floor_reached.
  - intros H1.
    rewrite (presses_level (List.repeat ZoomOut 9) s initial H1).
    rewrite (presses_level (List.repeat ZoomOut 10) s initial H1).
    rewrite (presses_level (List.repeat ZoomIn 3) s initial H1).
    repeat split; vm_compute; reflexivity.
  - intros Hi Hc Hr.
    rewrite (ScalingFacts.optimalZoomEffect_fires s Hi Hc).
    cbv zeta. cbn [zoomOut zoomLevel].
    rewrite (below_tenth_below_one _ Hr).
    split; [reflexivity|].
    apply floor_reached. now apply ltb_leb.
Qed.

Lemma zoom_out_floor_witness :
  let s := mkState 1 (mkDimensions 6000 300) (mkDimensions 480 600) 1 in
  zoomLevel (optimalZoomEffect s) = 480 / 6000 /\
  zoomLevel (zoomOut (optimalZoomEffect s)) = 0.1.
Proof.
  exact (proj2 (proj2 (proj2 (zoom_out_floor
           (mkState 1 (mkDimensions 6000 300) (mkDimensions 480 600) 1))))
           eq_refl eq_refl eq_refl).
Defined.

Lemma setImageDimensions_dims (d : Dimensions) (s : State) :
  imageDimensions (setImageDimensions d s) = d /\
  containerDimensions (setImageDimensions d s) = containerDimensions s.
Proof.
  unfold setImageDimensions, optimalZoomEffect.
  cbn [imageDimensions containerDimensions].
  destruct ((0 <? width d) && (0 <? width (containerDimensions s)));
    split; reflexivity.
Qed.

Lemma setImageDimensions_zero (h : float) (s : State) :
  zoomLevel (setImageDimensions (mkDimensions 0 h) s) = zoomLevel s /\
  optimalZoom (setImageDimensions (mkDimensions 0 h) s) = optimalZoom s.
Proof. split; reflexivity. Qed.

(** Where the diagram's size comes from, once its payload has been seen and
    its image has loaded: from the image's natural size when the payload
    carries no metadata; from the metadata, whatever the natural size, when
    it carries a width and a height that are truthy (neither 0 nor NaN), and
    then the fitted zoom, min(1, containerWidth / width) with the binary64
    quotient, is known before the image has loaded; and from nowhere when
    the metadata's width or height is falsy: the size stays 0 by 0, the load
    event is ignored, and the zoom is left as it was. *)
Theorem image_size_source (currentVis : Api.Image)
  (naturalWidth naturalHeight : float) (s : State) :
  let seen := metadataEffect currentVis s in
  let loaded := handleImageLoad currentVis naturalWidth naturalHeight seen in
  (Api.getImageMetadata currentVis = None ->
   imageDimensions loaded = mkDimensions naturalWidth naturalHeight) /\
  (forall m, Api.getImageMetadata currentVis = Some m ->
     truthy (Api.width m) = true -> truthy (Api.height m) = true ->
     loaded = seen /\
     imageDimensions loaded = mkDimensions (Api.width m) (Api.height m) /\
     ((0 <? Api.width m) = true ->
      (0 <? width (containerDimensions s)) = true ->
      is_finite (width (containerDimensions s)) = true ->
      zoomLevel seen =
        mathMin 1 (width (containerDimensions s) / Api.width m))) /\
  (forall m, Api.getImageMetadata currentVis = Some m ->
     truthy (Api.width m) = false \/ truthy (Api.height m) = false ->
     imageDimensions loaded = mkDimensions 0 0 /\
     zoomLevel loaded = zoomLevel s /\
     optimalZoom loaded = optimalZoom s).
Proof.
  intros seen loaded. unfold loaded, seen, handleImageLoad, metadataEffect.
  split; [|split].
  - intros ->. apply setImageDimensions_dims.
  - intros m -> Hw Hh. rewrite Hw, Hh.
    cbn [andb]. split; [reflexivity|]. split; [apply setImageDimensions_dims|].
    intros Hpos Hc Hf. unfold setImageDimensions.
    now rewrite ScalingFacts.fitted_zoom.
  - intros m -> Hzero.
    assert (E : truthy (Api.width m) && truthy (Api.height m) = false).
    { destruct Hzero as [H|H]; rewrite H;
        [reflexivity | apply andb_false_r]. }
    rewrite E. split; [apply setImageDimensions_dims|].
    apply setImageDimensions_zero.
Qed.

Lemma image_size_source_witness :
  let vis := Api.Enhanced "iVBORw0KGgo" (Api.mkMetadata 0 240) in
  let s := mkState 0.5 (mkDimensions 1600 400) (mkDimensions 800 600) 0.5 in
  imageDimensions (handleImageLoad vis 1600 400 (metadataEffect vis s)) =
    mkDimensions 0 0 /\
  zoomLevel (handleImageLoad vis 1600 400 (metadataEffect vis s)) = 0.5 /\
  optimalZoom (handleImageLoad vis 1600 400 (metadataEffect vis s)) = 0.5.
Proof.
  apply (proj2 (proj2 (image_size_source
           (Api.Enhanced "iVBORw0KGgo" (Api.mkMetadata 0 240)) 1600 400
           (mkState 0.5 (mkDimensions 1600 400) (mkDimensions 800 600) 0.5)))
           (Api.mkMetadata 0 240) eq_refl).
  left. reflexivity.
Defined.

End DiagramFacts.

(* ================================================================= *)
(** ** The measurement table: further properties *)

Module SynthMore.
Import JS SimulationResults Props MoreProps SynthLemmas SynthFacts.

#[local] Arguments totalShots : simpl never.

Lemma isSpecial_false (t : jsstr) :
  isSpecial t = false ->
  synthesize t = fun n => Ok (otherCounts t n).
Proof.
  unfold isSpecial, synthesize. intros H.
  apply orb_false_iff in H as [H Hw]. apply orb_false_iff in H as [Hb Hg].
  now rewrite Hb, Hg, Hw.
Qed.

Lemma fold_left_pointwise {A B : Type} (f g : A -> B -> A) (l : list B) :
  (forall a b, f a b = g a b) ->
  forall a, fold_left f l a = fold_left g l a.
Proof.
  intros H. induction l as [|b l IH]; intros a; simpl; [reflexivity|].
  now rewrite H, IH.
Qed.

Lemma factor_hashClass (t : jsstr) :
  factor t = PrimFloat.div (to_float (hashClass t)) 10%float.
Proof. reflexivity. Qed.

(** Outside the three named circuits the table depends on the type string
    only through its first code unit modulo 10: two such types in the same
    class get the same table for the same qubit count, for instance "qft"
    and "grover". *)
Theorem fallback_hash_class (t1 t2 : jsstr) (n : Z) :
  isSpecial t1 = false -> isSpecial t2 = false ->
  hashClass t1 = hashClass t2 ->
  synthesize t1 n = synthesize t2 n.
Proof.
  intros H1 H2 Hh. rewrite (isSpecial_false t1 H1), (isSpecial_false t2 H2).
  f_equal. unfold otherCounts.
  destruct (n <? 0); [reflexivity|].
  rewrite (fold_left_pointwise (otherBody t1 n) (otherBody t2 n)).
  - reflexivity.
  - intros [cs r] i. unfold otherBody.
    now rewrite (factor_hashClass t1), (factor_hashClass t2), Hh.
Qed.

Lemma fallback_hash_class_witness :
  synthesize (lit "qft") 3 = synthesize (lit "grover") 3.
Proof.
  apply fallback_hash_class; reflexivity.
Defined.

(** *** Probabilities *)

Lemma toProbabilities_from (cs : SimulationCounts) :
  forall acc : object float,
    NoDup (keys acc ++ keys cs) ->
    fold_left
      (fun o entry =>
         set o (fst entry)
           (PrimFloat.div (to_float (snd entry)) (float_of_Z totalShots)))
      cs acc = acc ++ map probabilityOf cs.
Proof.
  induction cs as [|[k c] cs IH]; intros acc Hnd; simpl.
  - now rewrite app_nil_r.
  - rewrite set_fresh.
    + rewrite IH.
      * rewrite <- app_assoc. reflexivity.
      * rewrite keys_app. simpl. rewrite <- app_assoc. exact Hnd.
    + simpl in Hnd. apply NoDup_remove_2 in Hnd.
      intros Hin. apply Hnd. apply in_or_app. now left.
Qed.

Lemma toProbabilities_map (cs : SimulationCounts) :
  NoDup (keys cs) -> toProbabilities cs = map probabilityOf cs.
Proof.
  intros Hnd. unfold toProbabilities.
  now rewrite (toProbabilities_from cs []).
Qed.

Lemma get_probabilityOf (cs : SimulationCounts) (k : string) :
  get (map probabilityOf cs) k =
    option_map (fun c => PrimFloat.div (to_float c) (float_of_Z totalShots))
               (get cs k).
Proof.
  induction cs as [|[k' c] cs IH]; simpl; [reflexivity|].
  destruct (String.eqb k' k); [reflexivity | exact IH].
Qed.

Lemma probabilityExact_all :
  forallb probabilityExact (range 1025) = true.
Proof. vm_compute. reflexivity. Qed.

Lemma sum_from (l : list number) :
  Forall nonNegative l ->
  forall a, exists T,
    fold_left add l (Int a) = Int (a + T) /\ 0 <= T /\
    forall c, In (Int c) l -> 0 <= c <= T.
Proof.
  induction 1 as [|x l (z & -> & Hz) Hl IH]; intros a.
  - exists 0. simpl. rewrite Z.add_0_r.
    split; [reflexivity|]. split; [lia|]. intros c [].
  - simpl. destruct (IH (a + z)) as (T & E & HT & Hin).
    exists (z + T). rewrite E. split; [f_equal; lia|]. split; [lia|].
    intros c [Hc|Hc].
    + injection Hc as <-. lia.
    + specialize (Hin c Hc). lia.
Qed.

Lemma get_In {V : Type} (o : object V) (k : string) (v : V) :
  get o k = Some v -> In v (values o).
Proof.
  induction o as [|[k' v'] o IH]; simpl; [discriminate|].
  destruct (String.eqb k' k).
  - intros H. injection H as <-. now left.
  - intros H. right. now apply IH.
Qed.

Lemma counts_bounded (cs : SimulationCounts) (T : Z) :
  Forall nonNegative (values cs) -> sumOfCounts cs = Int T ->
  forall k c, get cs k = Some (Int c) -> 0 <= c <= T.
Proof.
  intros Hpos Hsum k c Hget.
  destruct (sum_from (values cs) Hpos 0) as (T' & E & _ & Hin).
  unfold sumOfCounts in Hsum. rewrite E in Hsum. injection Hsum as <-.
  apply Hin. now apply (get_In cs k).
Qed.

(** For a response with a non-empty type and at least one qubit, the
    probabilities are the counts divided by 1024, outcome by outcome and in
    the same order, and the division loses nothing: the binary64 stored for
    an outcome is exactly its count over 1024, a value between 0 and 1. *)
Theorem probabilities_exact (cd : CircuitResponse) :
  circuit_type cd <> [] -> 1 <= resolveNumQubits cd ->
  exists r,
    handleRunSimulation cd = Shown r /\
    probabilities r = map probabilityOf (counts r) /\
    forall k c, get (counts r) k = Some (Int c) ->
      exists p q,
        get (probabilities r) k = Some p /\
        exactQ p = Some q /\
        (q == Qmake c 1024)%Q /\ (0 <= q <= 1)%Q.
Proof.
  intros Ht Hn.
  destruct (conservation_nonempty (circuit_type cd) (resolveNumQubits cd) Ht Hn)
    as (cs & E & Hsum & Hpos & Hnd).
  unfold handleRunSimulation. rewrite E. eexists. split; [reflexivity|].
  cbn [counts probabilities].
  rewrite (toProbabilities_map cs Hnd). split; [reflexivity|].
  intros k c Hget.
  pose proof (counts_bounded cs totalShots Hpos Hsum k c Hget) as Hc.
  unfold totalShots in Hc.
  pose proof (forallb_range _ 1025 probabilityExact_all c ltac:(lia)) as Hex.
  unfold probabilityExact in Hex.
  destruct (exactQ (PrimFloat.div (float_of_Z c) (float_of_Z totalShots)))
    as [q|] eqn:Eq; [|discriminate].
  apply Qeq_bool_iff in Hex.
  exists (PrimFloat.div (float_of_Z c) (float_of_Z totalShots)), q.
  split; [rewrite get_probabilityOf, Hget; reflexivity|].
  split; [exact Eq|]. split; [exact Hex|].
  rewrite Hex. unfold Qle. simpl. lia.
Qed.

Lemma probabilities_exact_witness :
  exists r,
    handleRunSimulation Scenarios.ghzArtifact = Shown r /\
    probabilities r = map probabilityOf (counts r) /\
    forall k c, get (counts r) k = Some (Int c) ->
      exists p q,
        get (probabilities r) k = Some p /\
        exactQ p = Some q /\
        (q == Qmake c 1024)%Q /\ (0 <= q <= 1)%Q.
Proof.
  apply probabilities_exact; [discriminate | vm_compute; discriminate].
Defined.

(** *** The named branches at their edges *)

(** The GHZ table for any qubit count n >= 1: two outcomes, n zeros with
    491 shots and n ones with 533, whatever n is. *)
Theorem ghz_table (cd : CircuitResponse) :
  circuit_type cd = lit "ghz_state" -> 1 <= resolveNumQubits cd ->
  exists zeros ones,
    handleRunSimulation cd =
      Shown (mkResults [(zeros, Int 491); (ones, Int 533)]
               (resolveNumQubits cd) 1024
               [(zeros, 0.4794921875%float); (ones, 0.5205078125%float)]) /\
    Z.of_nat (String.length zeros) = resolveNumQubits cd /\
    Z.of_nat (String.length ones) = resolveNumQubits cd /\
    (forall j c, String.get j zeros = Some c -> c = "0"%char) /\
    (forall j c, String.get j ones = Some c -> c = "1"%char).
Proof.
  intros Et Hn.
  exists (join (replicate (Z.to_nat (resolveNumQubits cd)) "0"%char)),
         (join (replicate (Z.to_nat (resolveNumQubits cd)) "1"%char)).
  split.
  - unfold handleRunSimulation. rewrite Et.
    change (synthesize (lit "ghz_state") (resolveNumQubits cd))
      with (ghzCounts (resolveNumQubits cd)).
    rewrite ghzCounts_value by exact Hn.
    unfold toProbabilities. cbn [fold_left fst snd set].
    pose proof (zeros_ne_ones (resolveNumQubits cd) Hn) as Hne.
    apply String.eqb_neq in Hne. rewrite Hne. reflexivity.
  - rewrite !length_join, !length_replicate.
    repeat split; try lia; intros j c; rewrite get_join; intros H;
      apply nth_error_In in H;
      (induction (Z.to_nat (resolveNumQubits cd)) as [|k IH];
       [destruct H | destruct H as [H|H]; [now subst | now apply IH]]).
Qed.

Lemma ghz_table_witness :
  exists zeros ones,
    handleRunSimulation Scenarios.ghzArtifact =
      Shown (mkResults [(zeros, Int 491); (ones, Int 533)]
               (resolveNumQubits Scenarios.ghzArtifact) 1024
               [(zeros, 0.4794921875%float); (ones, 0.5205078125%float)]) /\
    Z.of_nat (String.length zeros) = resolveNumQubits Scenarios.ghzArtifact /\
    Z.of_nat (String.length ones) = resolveNumQubits Scenarios.ghzArtifact /\
    (forall j c, String.get j zeros = Some c -> c = "0"%char) /\
    (forall j c, String.get j ones = Some c -> c = "1"%char).
Proof.
  apply ghz_table; [reflexivity | vm_compute; discriminate].
Defined.

(** A negative qubit count is not defaulted and each branch meets it in its
    own way: the GHZ branch fails with the message of the catch block, the
    W branch shows a table with no outcome at all, and the Bell branch shows
    its usual two outcomes. *)
Theorem negative_qubit_count (cd : CircuitResponse) :
  resolveNumQubits cd < 0 ->
  (circuit_type cd = lit "ghz_state" ->
   handleRunSimulation cd =
     Failed "Failed to run simulation. Please try again.") /\
  (circuit_type cd = lit "w_state" ->
   handleRunSimulation cd = Shown (mkResults [] (resolveNumQubits cd) 1024 [])) /\
  (circuit_type cd = lit "bell_state" ->
   handleRunSimulation cd =
     Shown (mkResults [("00"%string, Int 491); ("11"%string, Int 533)]
              (resolveNumQubits cd) 1024
              [("00"%string, 0.4794921875%float);
               ("11"%string, 0.5205078125%float)])).
Proof.
  intros Hn. unfold handleRunSimulation. repeat split; intros ->.
  - change (synthesize (lit "ghz_state") (resolveNumQubits cd))
      with (ghzCounts (resolveNumQubits cd)).
    unfold ghzCounts, repeat.
    destruct (Z.ltb_spec (resolveNumQubits cd) 0); [reflexivity | lia].
  - change (synthesize (lit "w_state") (resolveNumQubits cd))
      with (wCounts (resolveNumQubits cd)).
    unfold wCounts, range.
    replace (Z.to_nat (resolveNumQubits cd)) with 0%nat by lia.
    reflexivity.
  - change (synthesize (lit "bell_state") (resolveNumQubits cd))
      with (Ok bellCounts).
    rewrite bellCounts_value. reflexivity.
Qed.

Lemma negative_qubit_count_witness :
  handleRunSimulation
    (mkCircuitResponse (lit "w_state") (Some (-3)) None
       "explanation" "diagram" "code") =
    Shown (mkResults [] (-3) 1024 []).
Proof.
  apply (proj1 (proj2 (negative_qubit_count
           (mkCircuitResponse (lit "w_state") (Some (-3)) None
              "explanation" "diagram" "code") eq_refl))).
  reflexivity.
Defined.



(** *** The fallback branch *)

Lemma firstShare_all :
  forallb (fun d =>
             match share (Int 1024) 0 (PrimFloat.div (float_of_Z d) 10%float) with
             | Int c => c =? 102
             | NaN => false
             end) (range 10) = true.
Proof. vm_compute. reflexivity. Qed.

Lemma firstShare (c : N) (t : jsstr) :
  share (Int totalShots) 0 (factor (c :: t)) = Int 102.
Proof.
  destruct (Fallback.factor_nonempty c t) as (d & Hd & ->).
  pose proof (forallb_range _ 10 firstShare_all d ltac:(lia)) as H.
  cbv beta in H. unfold totalShots.
  destruct (share (Int 1024) 0 _) as [z|]; [|discriminate].
  apply Z.eqb_eq in H. now subst.
Qed.

Lemma set_head {V : Type} (k0 k : string) (v0 v : V) (o : object V) :
  k0 <> k -> set ((k0, v0) :: o) k v = (k0, v0) :: set o k v.
Proof.
  intros H. simpl. apply String.eqb_neq in H. now rewrite H.
Qed.

(** From the first round on, the all-zero outcome heads the table with 102
    shots. *)
Lemma otherLoop_head (c : N) (t : jsstr) (n : Z) (k : nat) :
  exists rest r,
    fold_left (otherBody (c :: t) n) (range (Z.of_nat (S k)))
      ([], Int totalShots) = ((stateKey n 0, Int 102) :: rest, r).
Proof.
  induction k as [|k (rest & r & IH)].
  - exists [], (sub (Int totalShots) (Int 102)).
    change (range (Z.of_nat 1)) with [0].
    cbn [fold_left otherBody]. rewrite firstShare. reflexivity.
  - rewrite range_succ, fold_left_app, IH. cbn [fold_left otherBody].
    rewrite set_head.
    + eexists _, _. reflexivity.
    + intros E. apply Fallback.stateKey_inj in E; lia.
Qed.

Lemma otherCounts_head (c : N) (t : jsstr) (n : Z) :
  1 <= n ->
  exists rest, otherCounts (c :: t) n = (stateKey n 0, Int 102) :: rest.
Proof.
  intros Hn. pose proof (maxStates_ge_2 n Hn) as Hm.
  unfold otherCounts. destruct (Z.ltb_spec n 0); [lia|].
  set (m := Z.min (2 ^ n) 16) in *.
  assert (E1 : m - 1 = Z.of_nat (S (Z.to_nat (m - 2)))) by lia.
  rewrite E1.
  destruct (otherLoop_head c t n (Z.to_nat (m - 2))) as (rest & r & ->).
  destruct (gt0 r); [|eauto].
  rewrite set_head.
  - eauto.
  - intros E. apply Fallback.stateKey_inj in E; lia.
Qed.

Lemma otherCounts_last (c : N) (t : jsstr) (n : Z) :
  0 <= n ->
  exists cs r,
    otherCounts (c :: t) n =
      cs ++ [(stateKey n (Z.min (2 ^ n) 16 - 1), Int r)] /\
    1 <= r <= 1024.
Proof.
  intros Hn. destruct (Fallback.maxStates_bounds n Hn) as [Hm _].
  unfold otherCounts. destruct (Z.ltb_spec n 0); [lia|].
  set (m := Z.min (2 ^ n) 16) in *.
  assert (E1 : m - 1 = Z.of_nat (Z.to_nat (m - 1))) by lia.
  set (k := Z.to_nat (m - 1)) in *. clearbody k. rewrite E1.
  pose proof (Fallback.otherLoop_keys (c :: t) n k) as Hkeys.
  destruct (Fallback.otherLoop_shares c t n k)
    as (cs & r & Hfold & Hr & _ & _).
  rewrite Hfold in *. cbn [fst] in Hkeys. cbn [gt0].
  destruct (Z.ltb_spec 0 r); [|lia].
  rewrite set_fresh by (now apply Fallback.stateKey_fresh).
  exists cs, r. split; [reflexivity | exact Hr].
Qed.

(** The table of an unrecognised, non-empty type for n >= 1 qubits: exactly
    min(2^n, 16) outcomes; the i-th one is i written in binary on n digits,
    so the outcomes come in increasing order; the all-zero outcome always
    has 102 shots, and the last outcome, which takes what is left, always
    has at least one. *)
Theorem fallback_table (t : jsstr) (n : Z) :
  t <> [] -> isSpecial t = false -> 1 <= n ->
  exists cs,
    synthesize t n = Ok cs /\
    Z.of_nat (List.length cs) = Z.min (2 ^ n) 16 /\
    (forall i : nat, Z.of_nat i < Z.min (2 ^ n) 16 ->
       exists key v,
         nth_error cs i = Some (key, v) /\
         Z.of_nat (String.length key) = n /\
         binaryValue (list_ascii_of_string key) = Z.of_nat i) /\
    (exists rest, cs = (stateKey n 0, Int 102) :: rest) /\
    (exists front r,
       cs = front ++ [(stateKey n (Z.min (2 ^ n) 16 - 1), Int r)] /\ 1 <= r).
Proof.
  intros Ht Hs Hn. rewrite (isSpecial_false t Hs).
  destruct t as [|c t]; [contradiction|].
  exists (otherCounts (c :: t) n). split; [reflexivity|].
  destruct (Fallback.otherCounts_nonempty c t n ltac:(lia)) as (Hkeys & _ & _).
  destruct (Fallback.maxStates_bounds n ltac:(lia)) as [Hm Hpow].
  split; [|split; [|split]].
  - rewrite <- length_keys, Hkeys, range_of_nat, length_map, length_range. lia.
  - intros i Hi.
    assert (Hnth : nth_error (keys (otherCounts (c :: t) n)) i =
                   Some (stateKey n (Z.of_nat i))).
    { rewrite Hkeys, range_of_nat, nth_error_map, nth_error_range by lia.
      reflexivity. }
    unfold keys in Hnth. rewrite nth_error_map in Hnth.
    destruct (nth_error (otherCounts (c :: t) n) i) as [[key v]|];
      [|discriminate].
    injection Hnth as ->. exists (stateKey n (Z.of_nat i)), v.
    split; [reflexivity|]. split.
    + pose proof (Fallback.stateKey_isBitstring n (Z.of_nat i) Hn ltac:(lia))
        as Hb.
      unfold isBitstring in Hb. apply andb_true_iff in Hb as [Hb _].
      now apply Z.eqb_eq in Hb.
    + unfold stateKey. fold (split (join (padStart (toString2 (Z.of_nat i)) n))).
      rewrite split_join. apply Fallback.binaryValue_padStart. lia.
  - now apply otherCounts_head.
  - destruct (otherCounts_last c t n ltac:(lia)) as (front & r & E & Hr).
    exists front, r. split; [exact E | lia].
Qed.

Lemma fallback_table_witness :
  exists cs,
    synthesize (lit "qft") 2 = Ok cs /\
    Z.of_nat (List.length cs) = Z.min (2 ^ 2) 16 /\
    (forall i : nat, Z.of_nat i < Z.min (2 ^ 2) 16 ->
       exists key v,
         nth_error cs i = Some (key, v) /\
         Z.of_nat (String.length key) = 2 /\
         binaryValue (list_ascii_of_string key) = Z.of_nat i) /\
    (exists rest, cs = (stateKey 2 0, Int 102) :: rest) /\
    (exists front r,
       cs = front ++ [(stateKey 2 (Z.min (2 ^ 2) 16 - 1), Int r)] /\ 1 <= r).
Proof.
  apply fallback_table; [discriminate | reflexivity | lia].
Defined.

End SynthMore.

(* ================================================================= *)
(** ** The histogram *)

Module HistogramFacts.
Import JS SimulationResults Props MoreProps SynthLemmas SynthFacts Histogram.

Lemma add_swap (a x y : number) : add (add a x) y = add (add a y) x.
Proof. destruct a, x, y; simpl; try reflexivity. f_equal. lia. Qed.

Lemma fold_add_perm (l l' : list number) :
  Permutation l l' -> forall a, fold_left add l a = fold_left add l' a.
Proof.
  induction 1 as [|x l l' _ IH|x y l|l l' l'' _ IH1 _ IH2]; intros a; simpl.
  - reflexivity.
  - apply IH.
  - now rewrite add_swap.
  - now rewrite IH1.
Qed.

Lemma sumOfEntries_perm (l l' : list Entry) :
  Permutation l l' -> sumOfEntries l = sumOfEntries l'.
Proof.
  intros H. unfold sumOfEntries. apply fold_add_perm.
  now apply Permutation_map.
Qed.

Lemma fold_add_ints (l : list number) :
  Forall nonNegative l ->
  exists T, 0 <= T /\ forall a, fold_left add l (Int a) = Int (a + T).
Proof.
  induction 1 as [|x l (z & -> & Hz) _ (T & HT & IH)].
  - exists 0. split; [lia|]. intros a. simpl. f_equal. lia.
  - exists (z + T). split; [lia|]. intros a. simpl. rewrite IH. f_equal. lia.
Qed.

Lemma sumOfEntries_app (l1 l2 : list Entry) :
  Forall nonNegative (map snd l1) -> Forall nonNegative (map snd l2) ->
  exists D H,
    sumOfEntries l1 = Int D /\ sumOfEntries l2 = Int H /\
    sumOfEntries (l1 ++ l2) = Int (D + H) /\ 0 <= D /\ 0 <= H.
Proof.
  intros H1 H2. unfold sumOfEntries. rewrite map_app, fold_left_app.
  destruct (fold_add_ints _ H1) as (D & HD & E1).
  destruct (fold_add_ints _ H2) as (H & HH & E2).
  exists D, H. rewrite !E1, !E2. repeat split; assumption.
Qed.

Lemma insertSorted_perm (compare : Entry -> Entry -> number) (x : Entry)
  (l : list Entry) : Permutation (insertSorted compare x l) (x :: l).
Proof.
  induction l as [|y l IH]; simpl; [reflexivity|].
  destruct (compare x y) as [c|]; [|reflexivity].
  destruct (0 <? c); [|reflexivity].
  rewrite IH. apply perm_swap.
Qed.

Lemma stableSort_perm (compare : Entry -> Entry -> number) (l : list Entry) :
  Permutation (stableSort compare l) l.
Proof.
  induction l as [|x l IH]; simpl; [reflexivity|].
  rewrite insertSorted_perm. now constructor.
Qed.

Section AnyEngine.

Variable entries : SimulationCounts -> list Entry.
Variable sort : (Entry -> Entry -> number) -> list Entry -> list Entry.
Variable localeCompare : string -> string -> number.

Hypothesis entries_perm : forall o, Permutation (entries o) o.
Hypothesis sort_perm : forall compare l, Permutation (sort compare l) l.

Lemma sorted_perm (results : Results) (sortOrder : SortOrder) :
  Permutation
    match sortOrder with
    | probability => sort byCount (entries (counts results))
    | state => sort (byState localeCompare) (entries (counts results))
    end (counts results).
Proof.
  destruct sortOrder; rewrite sort_perm; apply entries_perm.
Qed.

Lemma render_split (results : Results) (sortOrder : SortOrder) :
  Forall nonNegative (values (counts results)) ->
  sumOfCounts (counts results) = Int (resultShots results) ->
  let v := renderHistogram entries sort localeCompare results sortOrder in
  shots v = Int (resultShots results) /\
  (List.length (displayEntries v) <= 16)%nat /\
  (hasMoreStates v = false <-> (List.length (counts results) <= 16)%nat) /\
  exists hidden,
    Permutation (displayEntries v ++ hidden) (counts results) /\
    otherStatesCount v = sumOfEntries hidden /\
    (hasMoreStates v = false -> hidden = [] /\ otherStatesCount v = Int 0) /\
    (hasMoreStates v = true -> List.length (displayEntries v) = 16%nat).
Proof.
  intros Hpos Hsum v.
  assert (Hall : sumOfEntries (entries (counts results)) =
                 Int (resultShots results)).
  { rewrite (sumOfEntries_perm _ _ (entries_perm (counts results))).
    exact Hsum. }
  assert (Hshots :
            (if resultShots results =? 0
             then sumOfEntries (entries (counts results))
             else Int (resultShots results)) = Int (resultShots results)).
  { destruct (Z.eqb_spec (resultShots results) 0) as [E|_]; [|reflexivity].
    exact Hall. }
  pose proof (sorted_perm results sortOrder) as Hperm.
  unfold v, renderHistogram.
  cbn [shots displayEntries hasMoreStates otherStatesCount totalDisplayedCount].
  rewrite Hshots.
  set (sorted := match sortOrder with
                 | probability => sort byCount (entries (counts results))
                 | state => sort (byState localeCompare)
                                 (entries (counts results))
                 end) in *.
  assert (Hlen : List.length sorted = List.length (counts results))
    by (now apply Permutation_length).
  assert (Hsorted : Forall nonNegative (map snd sorted)).
  { assert (Hp : Permutation (map snd (counts results)) (map snd sorted))
      by (apply Permutation_map; now symmetry).
    exact (Permutation_Forall Hp Hpos). }
  split; [reflexivity|].
  unfold maxDisplayStates.
  destruct (Nat.ltb_spec 16 (List.length sorted)) as [Hmore|Hless].
  - split; [rewrite length_firstn; lia|]. split; [split; [discriminate | lia]|].
    exists (skipn 16 sorted). rewrite firstn_skipn. split; [exact Hperm|].
    split; [|split; [discriminate | intros _; rewrite length_firstn; lia]].
    rewrite <- (firstn_skipn 16 sorted), map_app in Hsorted.
    apply Forall_app in Hsorted as [Hd Hh].
    destruct (sumOfEntries_app _ _ Hd Hh) as (D & H & ED & EH & Eall & _ & _).
    rewrite firstn_skipn in Eall.
    rewrite (sumOfEntries_perm _ _ Hperm) in Eall.
    change (sumOfEntries (counts results)) with (sumOfCounts (counts results))
      in Eall.
    rewrite Hsum in Eall. injection Eall as Eall.
    rewrite ED, EH. simpl. f_equal. lia.
  - split; [lia|]. split; [split; [lia | reflexivity]|].
    exists []. rewrite app_nil_r. split; [exact Hperm|].
    assert (E : sub (Int (resultShots results)) (sumOfEntries sorted) = Int 0).
    { rewrite (sumOfEntries_perm _ _ Hperm).
      change (sumOfEntries (counts results))
        with (sumOfCounts (counts results)).
      rewrite Hsum. simpl. f_equal. lia. }
    rewrite E. split; [reflexivity|].
    split; [intros _; split; reflexivity | discriminate].
Qed.


(** Whatever order the engine enumerates and sorts in, for a table of
    non-negative counts that add up to its shots: at most 16 outcomes get a
    column of their own; those and the outcomes left out are together
    exactly the outcomes of the table; the count of the Other column is the
    number of shots of the outcomes left out.  A table of 16 outcomes or
    fewer is drawn whole, one column for each outcome and no Other column;
    a larger one is drawn as 16 state columns followed by the Other column,
    17 columns in all. *)
Theorem histogram_accounting (results : Results) (sortOrder : SortOrder) :
  Forall nonNegative (values (counts results)) ->
  sumOfCounts (counts results) = Int (resultShots results) ->
  let v := renderHistogram entries sort localeCompare results sortOrder in
  shots v = Int (resultShots results) /\
  (List.length (displayEntries v) <= 16)%nat /\
  (hasMoreStates v = false <-> (List.length (counts results) <= 16)%nat) /\
  (exists hidden,
     Permutation (displayEntries v ++ hidden) (counts results) /\
     otherStatesCount v = sumOfEntries hidden /\
     (hasMoreStates v = false -> hidden = [] /\ otherStatesCount v = Int 0)) /\
  (hasMoreStates v = false ->
   columns v =
     map (fun entry => StateColumn (fst entry) (snd entry)) (displayEntries v) /\
   List.length (columns v) = List.length (counts results)) /\
  (hasMoreStates v = true ->
   columns v =
     map (fun entry => StateColumn (fst entry) (snd entry)) (displayEntries v)
     ++ [OtherColumn (otherStatesCount v)] /\
   List.length (columns v) = 17%nat).
Proof.
  intros Hpos Hsum v.
  destruct (render_split results sortOrder Hpos Hsum)
    as (Hshots & Hlen & Hmore & hidden & Hperm & Hother & Hnone & Hfull).
  fold v in Hshots, Hlen, Hmore, Hperm, Hother, Hnone, Hfull.
  split; [exact Hshots|]. split; [exact Hlen|]. split; [exact Hmore|].
  split; [exists hidden; repeat split; try assumption; now apply Hnone|].
  unfold columns. split; intros E; rewrite E.
  - rewrite app_nil_r, length_map. split; [reflexivity|].
    destruct (Hnone E) as [-> _]. rewrite app_nil_r in Hperm.
    exact (Permutation_length Hperm).
  - split; [reflexivity|].
    pose proof (Hfull E) as H16.
    rewrite length_app, length_map. cbn [List.length].
    unfold Entry in *. lia.
Qed.

End AnyEngine.

Lemma histogram_accounting_witness :
  let results :=
    mkResults [("100"%string, Int 341); ("010"%string, Int 341);
               ("001"%string, Int 342)] 3 1024 [] in
  let v := renderHistogram (fun o => o) stableSort
             (fun _ _ => Int 0) results probability in
  shots v = Int 1024 /\
  (List.length (displayEntries v) <= 16)%nat /\
  (hasMoreStates v = false <-> (List.length (counts results) <= 16)%nat) /\
  (exists hidden,
     Permutation (displayEntries v ++ hidden) (counts results) /\
     otherStatesCount v = sumOfEntries hidden /\
     (hasMoreStates v = false -> hidden = [] /\ otherStatesCount v = Int 0)) /\
  (hasMoreStates v = false ->
   columns v =
     map (fun entry => StateColumn (fst entry) (snd entry)) (displayEntries v) /\
   List.length (columns v) = List.length (counts results)) /\
  (hasMoreStates v = true ->
   columns v =
     map (fun entry => StateColumn (fst entry) (snd entry)) (displayEntries v)
     ++ [OtherColumn (otherStatesCount v)] /\
   List.length (columns v) = 17%nat).
Proof.
  apply (histogram_accounting (fun o => o) stableSort (fun _ _ => Int 0)
           (fun o => Permutation_refl o) stableSort_perm
           (mkResults [("100"%string, Int 341); ("010"%string, Int 341);
                       ("001"%string, Int 342)] 3 1024 []) probability).
  - repeat constructor; eexists; (split; [reflexivity | lia]).
  - reflexivity.
Defined.

Lemma mathMax_from (l : list number) :
  Forall nonNegative l ->
  forall a, exists M,
    fold_left larger l (Finite (Int a)) = Finite (Int M) /\
    a <= M /\ (forall c, In (Int c) l -> c <= M) /\
    (M = a \/ In (Int M) l).
Proof.
  induction 1 as [|x l (z & -> & Hz) _ IH]; intros a.
  - exists a. split; [reflexivity|]. split; [lia|].
    split; [intros c [] | now left].
  - simpl. destruct (IH (Z.max a z)) as (M & E & HM & Hin & Hat).
    exists M. split; [exact E|]. split; [lia|]. split.
    + intros c [Hc|Hc]; [injection Hc as <-; lia | now apply Hin].
    + destruct Hat as [->|Hat]; [|right; now right].
      destruct (Z.max_spec a z) as [[_ ->]|[_ ->]];
        [right; now left | now left].
Qed.

(** A sum of counts that all lie between two bounds. *)
Lemma fold_add_between (lo hi : Z) (l : list number) :
  Forall (fun x => exists c, x = Int c /\ lo <= c <= hi) l ->
  exists T,
    lo * Z.of_nat (List.length l) <= T <= hi * Z.of_nat (List.length l) /\
    forall a, fold_left add l (Int a) = Int (a + T).
Proof.
  induction 1 as [|x l (z & -> & Hz) _ (T & HT & IH)].
  - exists 0. split; [simpl; lia|]. intros a. simpl. f_equal. lia.
  - exists (z + T). split.
    + cbn [List.length]. rewrite Nat2Z.inj_succ. nia.
    + intros a. simpl. rewrite IH. f_equal. lia.
Qed.

Lemma exists_positive (l : list number) :
  Forall nonNegative l ->
  forall a T, fold_left add l (Int a) = Int T -> a < T ->
  exists c, In (Int c) l /\ 1 <= c.
Proof.
  induction 1 as [|x l (z & -> & Hz) _ IH]; intros a T E Hlt; simpl in E.
  - injection E as E. lia.
  - destruct (Z_le_gt_dec 1 z) as [Hpos|Hzero].
    + exists z. split; [now left | exact Hpos].
    + destruct (IH (a + z) T E ltac:(lia)) as (c & Hc & Hc1).
      exists c. split; [now right | exact Hc1].
Qed.

Lemma In_firstn {A : Type} (n : nat) (l : list A) (x : A) :
  In x (firstn n l) -> In x l.
Proof.
  intros H. rewrite <- (firstn_skipn n l). apply in_or_app. now left.
Qed.

Lemma table_size (t : jsstr) (n : Z) (cs : SimulationCounts) :
  t <> [] -> 1 <= n -> t <> lit "w_state" \/ n <= 16 ->
  synthesize t n = Ok cs -> (List.length cs <= 16)%nat.
Proof.
  intros Ht Hn Hw E.
  destruct (synthesize_cases t n)
    as [[_ E']|[[_ E']|[[Et E']|(_ & _ & _ & E')]]]; rewrite E' in E.
  - injection E as <-. rewrite bellCounts_value. simpl. lia.
  - rewrite ghzCounts_value in E by exact Hn. injection E as <-. simpl. lia.
  - destruct Hw as [Hw|Hw]; [contradiction|].
    rewrite WState.wCounts_closed in E by exact Hn. injection E as <-.
    rewrite range_of_nat, length_map, length_range. lia.
  - injection E as <-. destruct t as [|c t]; [contradiction|].
    destruct (Fallback.otherCounts_nonempty c t n ltac:(lia)) as (Hkeys & _ & _).
    rewrite <- length_keys, Hkeys, range_of_nat, length_map, length_range.
    lia.
Qed.

Section Columns.

Variable entries : SimulationCounts -> list Entry.
Variable sort : (Entry -> Entry -> number) -> list Entry -> list Entry.
Variable localeCompare : string -> string -> number.

Hypothesis entries_perm : forall o, Permutation (entries o) o.
Hypothesis sort_perm : forall compare l, Permutation (sort compare l) l.

(** The heights of the bars, each one its count divided by the largest
    count of the table: for a table of non-negative counts that add up to a
    positive number of shots, that divisor is a count of at least 1, and the
    count of every state column lies between 0 and it, so a state bar is at
    most as tall as the plot.  The Other bar is not bounded that way: its
    count is the sum of the counts left out, which can be as many times the
    largest count as there are outcomes left out; for the W state of 20
    qubits it is 204 or more against a largest count of 55. *)
Theorem histogram_bars (results : Results) (sortOrder : SortOrder) :
  Forall nonNegative (values (counts results)) ->
  sumOfCounts (counts results) = Int (resultShots results) ->
  0 < resultShots results ->
  let v := renderHistogram entries sort localeCompare results sortOrder in
  exists M o,
    maxCount v = Finite (Int M) /\
    1 <= M /\
    (forall k c, In (k, Int c) (displayEntries v) -> 0 <= c <= M) /\
    (forall k c, In (StateColumn k (Int c)) (columns v) -> 0 <= c <= M) /\
    otherStatesCount v = Int o /\
    0 <= o <= (Z.of_nat (List.length (counts results)) -
               Z.of_nat (List.length (displayEntries v))) * M /\
    (hasMoreStates v = true -> In (OtherColumn (Int o)) (columns v)) /\
    (handleRunSimulation wState20 = Shown results ->
     hasMoreStates v = true /\ M = 55 /\ 204 <= o).
Proof.
  intros Hpos Hsum HT v.
  assert (Hvals : Permutation (map snd (entries (counts results)))
                    (values (counts results)))
    by (apply Permutation_map, entries_perm).
  assert (Hpos' : Forall nonNegative (map snd (entries (counts results))))
    by (exact (Permutation_Forall (Permutation_sym Hvals) Hpos)).
  assert (Hsum' : fold_left add (map snd (entries (counts results))) (Int 0)
                  = Int (resultShots results))
    by (rewrite (fold_add_perm _ _ Hvals); exact Hsum).
  destruct (exists_positive _ Hpos' 0 _ Hsum' HT) as (c1 & Hc1 & Hc1pos).
  (* the largest count *)
  assert (HM : exists M,
             maxCount v = Finite (Int M) /\
             (forall c, In (Int c) (values (counts results)) -> c <= M) /\
             In (Int M) (values (counts results))).
  { unfold v, renderHistogram. cbn [maxCount]. unfold mathMax.
    destruct (map snd (entries (counts results))) as [|x l] eqn:El;
      [destruct Hc1|].
    inversion Hpos' as [|x' l' (z & Ex & Hz) Hl]; subst.
    cbn [fold_left larger].
    destruct (mathMax_from l Hl z) as (M & E & HzM & Hin & Hat).
    exists M. split; [exact E|]. split.
    - intros c Hc. apply (Permutation_in _ (Permutation_sym Hvals)) in Hc.
      destruct Hc as [Hc|Hc]; [injection Hc as <-; exact HzM | now apply Hin].
    - apply (Permutation_in _ Hvals).
      destruct Hat as [->|Hat]; [now left | now right]. }
  destruct HM as (M & EM & Hbound & Hattained).
  assert (Hcount : forall k c, In (k, Int c) (counts results) -> 0 <= c <= M).
  { intros k c Hk.
    assert (Hval : In (Int c) (values (counts results)))
      by (apply (in_map snd) in Hk; exact Hk).
    split; [|now apply Hbound].
    rewrite Forall_forall in Hpos. destruct (Hpos _ Hval) as (c' & Ec & Hc').
    injection Ec as <-. exact Hc'. }
  (* the outcomes drawn and the outcomes left out *)
  destruct (render_split entries sort localeCompare
              entries_perm sort_perm results sortOrder Hpos Hsum)
    as (_ & _ & Hmore & hidden & Hperm & Hother & _ & Hfull).
  fold v in Hmore, Hperm, Hother, Hfull.
  assert (Hdrawn : forall k c, In (k, Int c) (displayEntries v) ->
                               In (k, Int c) (counts results)).
  { intros k c Hk. apply (Permutation_in _ Hperm), in_or_app. now left. }
  assert (Hleft : forall e, In e hidden -> In e (counts results)).
  { intros e He. apply (Permutation_in _ Hperm), in_or_app. now right. }
  assert (Hlen : Z.of_nat (List.length hidden) =
                 Z.of_nat (List.length (counts results)) -
                 Z.of_nat (List.length (displayEntries v))).
  { pose proof (Permutation_length Hperm) as HL.
    rewrite length_app in HL. unfold Entry, SimulationCounts, object in *.
    lia. }
  assert (Hsumleft : forall lo hi,
             (forall k c, In (k, Int c) (counts results) -> lo <= c <= hi) ->
             exists o, sumOfEntries hidden = Int o /\
                       lo * Z.of_nat (List.length hidden) <= o
                       <= hi * Z.of_nat (List.length hidden)).
  { intros lo hi Hall.
    assert (F : Forall (fun x => exists c, x = Int c /\ lo <= c <= hi)
                  (map snd hidden)).
    { apply Forall_forall. intros x Hx. apply in_map_iff in Hx.
      destruct Hx as ([k y] & <- & He). cbn [snd].
      pose proof (Hleft _ He) as Hin.
      assert (Hy : In y (values (counts results)))
        by (apply (in_map snd) in Hin; exact Hin).
      rewrite Forall_forall in Hpos. destruct (Hpos _ Hy) as (c & -> & _).
      exists c. split; [reflexivity | now apply (Hall k)]. }
    destruct (fold_add_between lo hi _ F) as (T & HTb & ET).
    exists T. unfold sumOfEntries. rewrite ET, length_map in *.
    split; [f_equal; lia | exact HTb]. }
  destruct (Hsumleft 0 M Hcount) as (o & Eo & Ho).
  exists M, o.
  split; [exact EM|].
  split; [pose proof (Hbound c1 (Permutation_in _ Hvals Hc1)); lia|].
  split; [intros k c Hk; now apply (Hcount k), Hdrawn|].
  split.
  { intros k c Hk. unfold columns in Hk. apply in_app_or in Hk.
    destruct Hk as [Hk|Hk].
    - apply in_map_iff in Hk. destruct Hk as ([k' y] & E & He).
      injection E as -> ->. now apply (Hcount k), Hdrawn.
    - destruct (hasMoreStates v); [destruct Hk as [Hk|[]]; discriminate
                                  | destruct Hk]. }
  split; [rewrite Hother; exact Eo|].
  split; [rewrite <- Hlen; nia|].
  split.
  { intros E. unfold columns. rewrite E. apply in_or_app. right.
    rewrite Hother, Eo. now left. }
  intros HW.
  assert (Hcs : List.length (counts results) = 20%nat /\
                In (Int 55) (values (counts results)) /\
                forall k c, In (k, Int c) (counts results) -> 51 <= c <= 55).
  { vm_compute in HW. injection HW as <-. cbn [counts].
    split; [reflexivity|].
    split; [unfold values; cbn [map snd]; auto 25 using in_eq, in_cons|].
    intros k c Hk. cbn [In] in Hk.
    repeat (destruct Hk as [Hk|Hk]; [injection Hk as _ <-; lia|]).
    destruct Hk. }
  destruct Hcs as (H20 & H55 & Hrange).
  assert (Emore : hasMoreStates v = true).
  { destruct (hasMoreStates v); [reflexivity|].
    destruct Hmore as [Hmore _]. specialize (Hmore eq_refl). lia. }
  split; [exact Emore|].
  split.
  - apply Hbound in H55.
    destruct (in_map_iff snd (counts results) (Int M)) as [Hin _].
    destruct (Hin Hattained) as ([k y] & Ey & He). cbn [snd] in Ey. subst y.
    specialize (Hrange k M He). lia.
  - destruct (Hsumleft 51 55 Hrange) as (o' & Eo' & Ho').
    rewrite Eo in Eo'. injection Eo' as <-.
    rewrite Hlen, H20, (Hfull Emore) in Ho'. lia.
Qed.

(** The histogram of a generated circuit: for a response with a non-empty
    type and at least one qubit, other than a W state of more than 16
    qubits, every outcome of the table gets a column, the columns account
    for all 1024 shots, and there is no Other column. *)
Theorem histogram_of_generated (cd : CircuitResponse) (sortOrder : SortOrder) :
  circuit_type cd <> [] -> 1 <= resolveNumQubits cd ->
  circuit_type cd <> lit "w_state" \/ resolveNumQubits cd <= 16 ->
  exists r,
    handleRunSimulation cd = Shown r /\
    let v := renderHistogram entries sort localeCompare r sortOrder in
    hasMoreStates v = false /\
    Permutation (displayEntries v) (counts r) /\
    shots v = Int 1024 /\
    totalDisplayedCount v = Int 1024 /\
    otherStatesCount v = Int 0.
Proof.
  intros Ht Hn Hw.
  destruct (conservation_nonempty (circuit_type cd) (resolveNumQubits cd) Ht Hn)
    as (cs & E & Hsum & _ & _).
  pose proof (table_size _ _ cs Ht Hn Hw E) as Hsize.
  unfold handleRunSimulation. rewrite E. eexists. split; [reflexivity|].
  set (r := mkResults cs (resolveNumQubits cd) totalShots (toProbabilities cs)).
  pose proof (sorted_perm entries sort localeCompare entries_perm sort_perm
                r sortOrder) as Hperm.
  cbv zeta. unfold renderHistogram.
  cbn [hasMoreStates displayEntries shots totalDisplayedCount otherStatesCount].
  set (sorted := match sortOrder with
                 | probability => sort byCount (entries (counts r))
                 | state => sort (byState localeCompare) (entries (counts r))
                 end) in *.
  assert (Hlen : List.length sorted = List.length cs)
    by (exact (Permutation_length Hperm)).
  unfold maxDisplayStates.
  destruct (Nat.ltb_spec 16 (List.length sorted)) as [Hmore|_]; [lia|].
  assert (Hall : sumOfEntries sorted = Int 1024).
  { rewrite (sumOfEntries_perm _ _ Hperm). exact Hsum. }
  rewrite Hall. repeat split; try reflexivity. exact Hperm.
Qed.

End Columns.

Lemma histogram_bars_witness :
  let results :=
    mkResults [("100"%string, Int 341); ("010"%string, Int 341);
               ("001"%string, Int 342)] 3 1024 [] in
  let v := renderHistogram (fun o => o) stableSort
             (fun _ _ => Int 0) results probability in
  exists M o,
    maxCount v = Finite (Int M) /\
    1 <= M /\
    (forall k c, In (k, Int c) (displayEntries v) -> 0 <= c <= M) /\
    (forall k c, In (StateColumn k (Int c)) (columns v) -> 0 <= c <= M) /\
    otherStatesCount v = Int o /\
    0 <= o <= (Z.of_nat (List.length (counts results)) -
               Z.of_nat (List.length (displayEntries v))) * M /\
    (hasMoreStates v = true -> In (OtherColumn (Int o)) (columns v)) /\
    (handleRunSimulation wState20 = Shown results ->
     hasMoreStates v = true /\ M = 55 /\ 204 <= o).
Proof.
  apply (histogram_bars (fun o => o) stableSort (fun _ _ => Int 0)
           (fun o => Permutation_refl o) stableSort_perm
           (mkResults [("100"%string, Int 341); ("010"%string, Int 341);
                       ("001"%string, Int 342)] 3 1024 []) probability).
  - repeat constructor; eexists; (split; [reflexivity | lia]).
  - reflexivity.
  - reflexivity.
Defined.

Lemma histogram_of_generated_witness :
  exists r,
    handleRunSimulation Scenarios.ghzArtifact = Shown r /\
    let v := renderHistogram (fun o => o) stableSort
               (fun _ _ => Int 0) r state in
    hasMoreStates v = false /\
    Permutation (displayEntries v) (counts r) /\
    shots v = Int 1024 /\
    totalDisplayedCount v = Int 1024 /\
    otherStatesCount v = Int 0.
Proof.
  apply (histogram_of_generated (fun o => o) stableSort (fun _ _ => Int 0)
           (fun o => Permutation_refl o) stableSort_perm
           Scenarios.ghzArtifact state).
  - discriminate.
  - vm_compute. discriminate.
  - left. discriminate.
Defined.

End HistogramFacts.
